(** * PythonSafetyMonitor: an ASCOM Alpaca safety monitor (src/main.py)

    A shallow embedding of the protocol and state layer of [main.py]:
    the two module-level flags [connected_status] and [is_safe_status],
    the FastAPI route handlers that read and write them, the UDP discovery
    loop and the keyboard loop.

    Conventions.
    - Python [int] is [Z]; [str] is [string]; a [dict] literal that is sent
      as JSON is an association list in the order the source writes its keys.
    - [int(time.time())] is the argument [now] of a handler.
    - The [world] is the two flags plus the chronological list of outward
      effects ([print], [logging.*], [sock.sendto], [time.sleep]).  A
      function of the source is a computation [M]: a sequence of atomic
      steps on the world that ends by returning or raising.  [run] executes
      a computation on its own; [interleave] lets other threads step in
      between.
    - An f-string that interpolates a non-string value is kept as the list
      of its literal pieces and interpolated values ([frag]). *)

From Stdlib Require Import ZArith String List Ascii Bool Lia.
From Stdlib.Strings Require Import Byte.
Import ListNotations.
Local Open Scope Z_scope.
Local Open Scope string_scope.
Set Warnings "-register-all".

(** ** Exceptions *)

(** The exception classes the modelled code can meet.  [KeyboardInterrupt]
    and [SystemExit] derive from [BaseException] only; the others derive
    from [Exception]. *)
Inductive exc_class : Type :=
| OSError
| UnicodeDecodeError
| TypeError
| ValueError
| KeyboardInterrupt
| SystemExit.

Record exn : Type := Exc { exc_cls : exc_class; exc_str : string }.

(** [isinstance(e, Exception)]. *)
Definition is_Exception (e : exn) : bool :=
  match exc_cls e with
  | KeyboardInterrupt | SystemExit => false
  | _ => true
  end.

Inductive result (A : Type) : Type :=
| Val (a : A)
| Raise (e : exn).
Arguments Val {A} a.
Arguments Raise {A} e.

(** ** JSON values *)

Inductive json : Type :=
| JBool (b : bool)
| JInt (z : Z)
| JStr (s : string)
| JList (l : list json)
| JObj (fields : list (string * json)).

Fixpoint assoc (k : string) (l : list (string * json)) : option json :=
  match l with
  | [] => None
  | (k', v) :: rest => if String.eqb k k' then Some v else assoc k rest
  end.

(** [body[k]] for a JSON object; [None] when the key is absent or the
    value is not an object. *)
Definition field (k : string) (j : json) : option json :=
  match j with
  | JObj l => assoc k l
  | _ => None
  end.

Definition keys (j : json) : list string :=
  match j with
  | JObj l => map fst l
  | _ => []
  end.

(** ** Configuration (lines 36-107) *)

Record config : Type := Config {
  cfg_alpaca_port : Z;
  cfg_udp_port : Z;
  cfg_device_name : string;
  cfg_device_number : Z;
  cfg_manufacturer : string;
  cfg_driver_version : string;
  cfg_location : string
}.

Definition DEFAULT_CONFIG : config :=
  {| cfg_alpaca_port := 11111;
     cfg_udp_port := 32227;
     cfg_device_name := "CloudWatcher";
     cfg_device_number := 0;
     cfg_manufacturer := "Julian Brendlin";
     cfg_driver_version := "1.0.0";
     cfg_location := "My Observatory" |}.

Definition SUPPORTED_ACTIONS : list string := ["Action1"; "Action2"; "Action3"].

(** [str.lower] on the ASCII range. *)
Definition lower_ascii (c : ascii) : ascii :=
  let n := N_of_ascii c in
  if ((65 <=? n) && (n <=? 90))%N then ascii_of_N (n + 32) else c.

Fixpoint lower (s : string) : string :=
  match s with
  | EmptyString => EmptyString
  | String c rest => String (lower_ascii c) (lower rest)
  end.

Definition DEVICE_TYPE : string := "safetymonitor".

(** ** The world: global flags and outward effects *)

Definition address : Type := (string * Z)%type.

Inductive level : Type := DEBUG | INFO | ERROR.

Inductive frag : Type :=
| Txt (s : string)
| FInt (z : Z)
| FBool (b : bool)
| FAddr (a : address)
| FExc (e : exn).

Inductive effect : Type :=
| Print (line : string)
| Logging (lvl : level) (msg : list frag)
| Sendto (payload : json) (to : address)
| Sleep_100ms.

Record world : Type := World {
  connected_status : bool;
  is_safe_status : bool;
  effects : list effect
}.

(** Lines 110-111. *)
Definition initial_world : world :=
  {| connected_status := false; is_safe_status := false; effects := [] |}.

(** ** Computations

    A computation is a sequence of atomic steps on the world: one read or
    one write of a global, one outward effect, one socket call.  Between two
    steps of a thread, other threads may take steps of their own. *)

Inductive M (A : Type) : Type :=
| Done (a : A)
| Raised (e : exn)
| Atomic (step : world -> M A * world).
Arguments Done {A} a.
Arguments Raised {A} e.
Arguments Atomic {A} step.

Definition ret {A} (a : A) : M A := Done a.

Fixpoint bind {A B} (m : M A) (k : A -> M B) : M B :=
  match m with
  | Done a => k a
  | Raised e => Raised e
  | Atomic step => Atomic (fun w => let (m', w') := step w in (bind m' k, w'))
  end.

Definition raise {A} (e : exn) : M A := Raised e.

(** [try: body / except Exception as e: handler(e)]: an exception that is
    not an instance of [Exception] passes through. *)
Fixpoint try_except_Exception {A} (body : M A) (handler : exn -> M A) : M A :=
  match body with
  | Done a => Done a
  | Raised e => if is_Exception e then handler e else Raised e
  | Atomic step =>
      Atomic (fun w => let (m', w') := step w in (try_except_Exception m' handler, w'))
  end.

(** A computation run on its own, no other thread stepping in between. *)
Fixpoint run {A} (m : M A) (w : world) : result A * world :=
  match m with
  | Done a => (Val a, w)
  | Raised e => (Raise e, w)
  | Atomic step => let (m', w') := step w in run m' w'
  end.

Declare Scope monad_scope.
Delimit Scope monad_scope with monad.
Notation "x <- c1 ;; c2" := (bind c1 (fun x => c2))
  (at level 100, c1 at next level, right associativity) : monad_scope.
Notation "c1 ;; c2" := (bind c1 (fun _ => c2))
  (at level 100, right associativity) : monad_scope.
Local Open Scope monad_scope.

(** One atomic step that returns a value. *)
Definition atomic {A} (f : world -> A * world) : M A :=
  Atomic (fun w => let (a, w') := f w in (Done a, w')).

Definition add_effects (es : list effect) (w : world) : world :=
  {| connected_status := connected_status w;
     is_safe_status := is_safe_status w;
     effects := effects w ++ es |}.

Definition emit (e : effect) : M unit := atomic (fun w => (tt, add_effects [e] w)).

Definition print (line : string) : M unit := emit (Print line).
Definition logging_debug (msg : list frag) : M unit := emit (Logging DEBUG msg).
Definition logging_info (msg : list frag) : M unit := emit (Logging INFO msg).
Definition logging_error (msg : list frag) : M unit := emit (Logging ERROR msg).

(** Reading and assigning the two module globals. *)
Definition get_connected_status : M bool := atomic (fun w => (connected_status w, w)).
Definition get_is_safe_status : M bool := atomic (fun w => (is_safe_status w, w)).

Definition set_connected_status (b : bool) : M unit :=
  atomic (fun w => (tt, {| connected_status := b;
                           is_safe_status := is_safe_status w;
                           effects := effects w |})).

Definition set_is_safe_status (b : bool) : M unit :=
  atomic (fun w => (tt, {| connected_status := connected_status w;
                           is_safe_status := b;
                           effects := effects w |})).

Definition CR : string := String (ascii_of_nat 13) EmptyString.

(** ** The request boundary (FastAPI parameter declarations)

    A parameter as it reaches a route: absent, present but not parsable to
    the declared type, or parsed.  [Query] parameters of a GET and [Form]
    parameters of a PUT are both read this way. *)

Inductive param (A : Type) : Type :=
| Missing
| Unparsable
| Given (a : A).
Arguments Missing {A}.
Arguments Unparsable {A}.
Arguments Given {A} a.

Record params : Type := Params {
  p_Connected : param bool;
  p_IsSafe : param bool;
  p_ClientID : param Z;
  p_ClientTransactionID : param Z
}.

Inductive validated (A : Type) : Type :=
| Accepted (a : A)
| Rejected (loc : list json).
Arguments Accepted {A} a.
Arguments Rejected {A} loc.

Definition errors_of {A} (v : validated A) : list json :=
  match v with
  | Accepted _ => []
  | Rejected l => l
  end.

Definition error_at (source name : string) : list json :=
  [JObj [("loc", JList [JStr source; JStr name])]].

(** [name: int = Query(0)]: optional, default 0, no bound. *)
Definition int_with_default (source name : string) (default : Z) (p : param Z)
  : validated Z :=
  match p with
  | Missing => Accepted default
  | Unparsable => Rejected (error_at source name)
  | Given z => Accepted z
  end.

(** [name: int = Query(..., ge=1, le=4294967295)] and the same with [Form]:
    required and range-checked. *)
Definition int_required_in_range (source name : string) (ge le : Z) (p : param Z)
  : validated Z :=
  match p with
  | Missing | Unparsable => Rejected (error_at source name)
  | Given z =>
      if Z.leb ge z && Z.leb z le then Accepted z
      else Rejected (error_at source name)
  end.

(** [name: bool = Form(...)]: required. *)
Definition bool_required (source name : string) (p : param bool) : validated bool :=
  match p with
  | Missing | Unparsable => Rejected (error_at source name)
  | Given b => Accepted b
  end.

(** What the client receives.  [ValidationError422] is FastAPI's answer to a
    request whose parameters fail their declaration: the route function is
    not called.  [ExceptionHandled] carries the value returned by
    [generic_exception_handler]. *)
Inductive response : Type :=
| Ok200 (body : json)
| ValidationError422 (detail : list json)
| ExceptionHandled (body : json).

Definition body (r : response) : json :=
  match r with
  | Ok200 b => b
  | ValidationError422 detail => JObj [("detail", JList detail)]
  | ExceptionHandled b => b
  end.

(** A 4xx answer. *)
Definition client_error (r : response) : bool :=
  match r with
  | ValidationError422 _ => true
  | _ => false
  end.

Definition server_fault (r : response) : bool :=
  match r with
  | ExceptionHandled _ => true
  | _ => false
  end.

(** The routes of the two API layers (lines 166-355).  The HTML page at
    ["/"] is outside them. *)
Inductive route : Type :=
| GET_issafe
| GET_connected
| PUT_connected
| GET_management_apiversions
| GET_management_description
| GET_management_configureddevices
| GET_description
| GET_driverinfo
| GET_driverversion
| GET_name
| GET_supportedactions
| PUT_setissafe.

Record request : Type := Request { req_route : route; req_params : params }.

(** ** Response models (lines 133-149) *)

Definition BoolResponse (Value : bool) (ClientTransactionID ServerTransactionID : Z)
  : json :=
  JObj [("Value", JBool Value);
        ("ClientTransactionID", JInt ClientTransactionID);
        ("ServerTransactionID", JInt ServerTransactionID)].

Definition ErrorResponse (ClientTransactionID ServerTransactionID ErrorNumber : Z)
  (ErrorMessage : string) : json :=
  JObj [("ClientTransactionID", JInt ClientTransactionID);
        ("ServerTransactionID", JInt ServerTransactionID);
        ("ErrorNumber", JInt ErrorNumber);
        ("ErrorMessage", JStr ErrorMessage)].

Definition UINT32_MAX : Z := 4294967295.

(** ** Route functions *)

Section Server.

Variable cfg : config.

(** Lines 99-107. *)
Definition alpaca_port : Z := cfg_alpaca_port cfg.
Definition UDP_PORT : Z := cfg_udp_port cfg.
Definition DEVICE_NAME : string := cfg_device_name cfg.
Definition DEVICE_NUMBER : Z := cfg_device_number cfg.
Definition UNIQUE_ID : string := lower DEVICE_NAME ++ "." ++ DEVICE_TYPE ++ ".001".
Definition MANUFACTURER : string := cfg_manufacturer cfg.
Definition DRIVER_VERSION : string := cfg_driver_version cfg.
Definition LOCATION : string := cfg_location cfg.

(** Lines 153-162. *)
Definition generic_exception_handler (now : Z) (exc : exn) : M json :=
  logging_error [Txt "Unhandled exception: "; FExc exc] ;;
  ret (ErrorResponse 0 now 1 (exc_str exc)).

(** Lines 166-178. *)
Definition get_safety_status (now : Z) (ClientTransactionID : Z) : M json :=
  logging_info [Txt "issafe endpoint called"] ;;
  is_safe <- get_is_safe_status ;;
  logging_debug [Txt "issafe called, ClientTransactionID="; FInt ClientTransactionID;
                 Txt ", is_safe="; FBool is_safe] ;;
  Value <- get_is_safe_status ;;
  ret (BoolResponse Value ClientTransactionID now).

(** Lines 181-195. *)
Definition get_connected (now : Z) (ClientID ClientTransactionID : Z) : M json :=
  logging_debug [Txt "connected GET called, ClientID="; FInt ClientID;
                 Txt ", ClientTransactionID="; FInt ClientTransactionID] ;;
  Value <- get_connected_status ;;
  ret (JObj [("Value", JBool Value);
             ("ClientTransactionID", JInt ClientTransactionID);
             ("ServerTransactionID", JInt now);
             ("ErrorNumber", JInt 0);
             ("ErrorMessage", JStr "")]).

(** Lines 198-218. *)
Definition connect_to_device (now : Z) (Connected : bool)
  (ClientID ClientTransactionID : Z) : M json :=
  logging_debug [Txt "connect PUT called, Connected="; FBool Connected;
                 Txt ", ClientID="; FInt ClientID;
                 Txt ", ClientTransactionID="; FInt ClientTransactionID] ;;
  set_connected_status Connected ;;
  c <- get_connected_status ;;
  let connection_text := if c then "CONNECTED" else "DISCONNECTED" in
  print (CR ++ "Device " ++ connection_text ++ "   ") ;;
  ret (JObj [("ClientTransactionID", JInt ClientTransactionID);
             ("ServerTransactionID", JInt now);
             ("ErrorNumber", JInt 0);
             ("ErrorMessage", JStr "")]).

(** Lines 221-229. *)
Definition api_versions : M json :=
  logging_debug [Txt "apiversions called"] ;;
  ret (JObj [("Value", JList [JInt 1]);
             ("ClientTransactionID", JInt 0);
             ("ServerTransactionID", JInt 1)]).

(** Lines 232-248. *)
Definition description : M json :=
  logging_debug [Txt "description called"] ;;
  ret (JObj [("Value", JObj [("DeviceName", JStr DEVICE_NAME);
                             ("DeviceType", JStr DEVICE_TYPE);
                             ("DeviceNumber", JInt DEVICE_NUMBER);
                             ("UniqueID", JStr UNIQUE_ID);
                             ("Manufacturer", JStr MANUFACTURER);
                             ("DriverVersion", JStr DRIVER_VERSION);
                             ("Location", JStr LOCATION)]);
             ("ClientTransactionID", JInt 0);
             ("ServerTransactionID", JInt 2)]).

(** Lines 251-266. *)
Definition configured_devices : M json :=
  logging_debug [Txt "configureddevices called"] ;;
  ret (JObj [("Value", JList [JObj [("DeviceName", JStr DEVICE_NAME);
                                    ("DeviceType", JStr DEVICE_TYPE);
                                    ("DeviceNumber", JInt DEVICE_NUMBER);
                                    ("UniqueID", JStr UNIQUE_ID)]]);
             ("ClientTransactionID", JInt 0);
             ("ServerTransactionID", JInt 3)]).

(** Lines 269-282. *)
Definition get_description (now : Z) (ClientTransactionID : Z) : M json :=
  logging_info [Txt "description endpoint called"] ;;
  let description_str := DEVICE_NAME ++ " SafetyMonitor from " ++ MANUFACTURER in
  logging_debug [Txt "description called, ClientTransactionID=";
                 FInt ClientTransactionID;
                 Txt (", description=" ++ description_str)] ;;
  ret (JObj [("Value", JStr description_str);
             ("ClientTransactionID", JInt ClientTransactionID);
             ("ServerTransactionID", JInt now)]).

(** Lines 285-298. *)
Definition get_driver_info (now : Z) (ClientTransactionID : Z) : M json :=
  logging_info [Txt "driverinfo endpoint called"] ;;
  let driver_info_str :=
    DEVICE_NAME ++ " v" ++ DRIVER_VERSION ++ " by " ++ MANUFACTURER in
  logging_debug [Txt "driverinfo called, ClientTransactionID=";
                 FInt ClientTransactionID;
                 Txt (", driver_info=" ++ driver_info_str)] ;;
  ret (JObj [("Value", JStr driver_info_str);
             ("ClientTransactionID", JInt ClientTransactionID);
             ("ServerTransactionID", JInt now)]).

(** Lines 301-309. *)
Definition get_driver_version (now : Z) (ClientTransactionID : Z) : M json :=
  logging_info [Txt "driverversion endpoint called"] ;;
  ret (JObj [("Value", JStr DRIVER_VERSION);
             ("ClientTransactionID", JInt ClientTransactionID);
             ("ServerTransactionID", JInt now)]).

(** Lines 312-320. *)
Definition get_device_name (now : Z) (ClientTransactionID : Z) : M json :=
  logging_info [Txt "name endpoint called"] ;;
  ret (JObj [("Value", JStr DEVICE_NAME);
             ("ClientTransactionID", JInt ClientTransactionID);
             ("ServerTransactionID", JInt now)]).

(** Lines 323-331. *)
Definition get_supported_actions (now : Z) (ClientTransactionID : Z) : M json :=
  logging_info [Txt "supportedactions endpoint called"] ;;
  ret (JObj [("Value", JList (map JStr SUPPORTED_ACTIONS));
             ("ClientTransactionID", JInt ClientTransactionID);
             ("ServerTransactionID", JInt now)]).

(** Lines 334-355. *)
Definition set_safety_status (now : Z) (IsSafe : bool)
  (ClientID ClientTransactionID : Z) : M json :=
  logging_info [Txt "setissafe endpoint called with IsSafe="; FBool IsSafe] ;;
  set_is_safe_status IsSafe ;;
  s <- get_is_safe_status ;;
  let status_text := if s then "SAFE" else "UNSAFE" in
  print (CR ++ "Current status: " ++ status_text ++ "   ") ;;
  logging_info [Txt ("Safety status changed to: " ++ status_text)] ;;
  ret (JObj [("ClientTransactionID", JInt ClientTransactionID);
             ("ServerTransactionID", JInt now);
             ("ErrorNumber", JInt 0);
             ("ErrorMessage", JStr "")]).

(** ** Routing: the decorators of the route functions

    [bind_route] checks the parameters a route declares and, when all of
    them pass, yields the call of its function. *)

Definition simple_read (f : Z -> M json) (q : params) : validated (M json) :=
  match int_with_default "query" "ClientTransactionID" 0 (p_ClientTransactionID q) with
  | Accepted ctid => Accepted (f ctid)
  | Rejected l => Rejected l
  end.

Definition bind_route (now : Z) (r : route) (q : params) : validated (M json) :=
  match r with
  | GET_issafe => simple_read (get_safety_status now) q
  | GET_connected =>
      let cid := int_required_in_range "query" "ClientID" 1 UINT32_MAX (p_ClientID q) in
      let ctid := int_required_in_range "query" "ClientTransactionID" 1 UINT32_MAX
                    (p_ClientTransactionID q) in
      match cid, ctid with
      | Accepted ClientID, Accepted ClientTransactionID =>
          Accepted (get_connected now ClientID ClientTransactionID)
      | _, _ => Rejected (errors_of cid ++ errors_of ctid)
      end
  | PUT_connected =>
      let con := bool_required "body" "Connected" (p_Connected q) in
      let cid := int_required_in_range "body" "ClientID" 1 UINT32_MAX (p_ClientID q) in
      let ctid := int_required_in_range "body" "ClientTransactionID" 1 UINT32_MAX
                    (p_ClientTransactionID q) in
      match con, cid, ctid with
      | Accepted Connected, Accepted ClientID, Accepted ClientTransactionID =>
          Accepted (connect_to_device now Connected ClientID ClientTransactionID)
      | _, _, _ => Rejected (errors_of con ++ errors_of cid ++ errors_of ctid)
      end
  | GET_management_apiversions => Accepted api_versions
  | GET_management_description => Accepted description
  | GET_management_configureddevices => Accepted configured_devices
  | GET_description => simple_read (get_description now) q
  | GET_driverinfo => simple_read (get_driver_info now) q
  | GET_driverversion => simple_read (get_driver_version now) q
  | GET_name => simple_read (get_device_name now) q
  | GET_supportedactions => simple_read (get_supported_actions now) q
  | PUT_setissafe =>
      let saf := bool_required "body" "IsSafe" (p_IsSafe q) in
      let cid := int_required_in_range "body" "ClientID" 1 UINT32_MAX (p_ClientID q) in
      let ctid := int_required_in_range "body" "ClientTransactionID" 1 UINT32_MAX
                    (p_ClientTransactionID q) in
      match saf, cid, ctid with
      | Accepted IsSafe, Accepted ClientID, Accepted ClientTransactionID =>
          Accepted (set_safety_status now IsSafe ClientID ClientTransactionID)
      | _, _, _ => Rejected (errors_of saf ++ errors_of cid ++ errors_of ctid)
      end
  end.

(** One request through the application: parameter validation, the route
    function, and [generic_exception_handler] around it. *)
Definition app (now : Z) (r : request) : M response :=
  match bind_route now (req_route r) (req_params r) with
  | Rejected detail => ret (ValidationError422 detail)
  | Accepted call =>
      try_except_Exception
        (b <- call ;; ret (Ok200 b))
        (fun exc => b <- generic_exception_handler now exc ;; ret (ExceptionHandled b))
  end.

End Server.

(** ** UDP discovery (lines 505-527)

    The environment of one turn of the [while True] loop: what
    [sock.recvfrom(1024)] does, and what [sock.sendto] does if the turn
    gets that far. *)

Record datagram_io : Type := DatagramIO {
  recvfrom_result : result (list byte * address);
  sendto_result : result unit
}.

Definition recvfrom (io : datagram_io) : M (list byte * address) :=
  Atomic (fun w =>
            (match recvfrom_result io with
             | Val received => Done received
             | Raise e => Raised e
             end, w)).

(** The bytes on the wire are [json.dumps(payload).encode()], a function of
    the dict alone; the effect records the dict. *)
Definition sendto (io : datagram_io) (payload : json) (addr : address) : M unit :=
  Atomic (fun w =>
            match sendto_result io with
            | Val _ => (Done tt, add_effects [Sendto payload addr] w)
            | Raise e => (Raised e, w)
            end).

Section Discovery.

Variable cfg : config.

(** Lines 512-527: the body of the loop. *)
Definition discovery_iteration (io : datagram_io) : M unit :=
  try_except_Exception
    (received <- recvfrom io ;;
     let data := fst received in
     let addr := snd received in
     logging_debug [Txt "Received discovery request from "; FAddr addr] ;;
     let response :=
       JObj [("AlpacaPort", JInt (alpaca_port cfg));
             ("Manufacturer", JStr (MANUFACTURER cfg));
             ("ManufacturerVersion", JStr (DRIVER_VERSION cfg));
             ("DeviceName", JStr (DEVICE_NAME cfg));
             ("DeviceType", JStr DEVICE_TYPE);
             ("DeviceNumber", JInt (DEVICE_NUMBER cfg));
             ("UniqueID", JStr (UNIQUE_ID cfg))] in
     sendto io response addr ;;
     logging_debug [Txt "Sent discovery response to "; FAddr addr])
    (fun e => logging_error [Txt "Error in discovery listener: "; FExc e]).

(** [while True] over the turns the environment has offered so far.  A run
    that ends in [Val tt] means the loop is still running, waiting in
    [recvfrom]; one that ends in [Raise e] means [e] left the loop and ended
    the listener. *)
Fixpoint discovery_loop (ios : list datagram_io) : M unit :=
  match ios with
  | [] => ret tt
  | io :: rest => discovery_iteration io ;; discovery_loop rest
  end.

(** Lines 505-527; socket creation and [bind] are taken to succeed. *)
Definition start_discovery_listener (ios : list datagram_io) : M unit :=
  logging_info [Txt "Listening for Alpaca discovery on UDP port "; FInt (UDP_PORT cfg)] ;;
  discovery_loop ios.

End Discovery.

(** ** Keyboard monitor (lines 538-559) *)

Definition LF : string := String (ascii_of_nat 10) EmptyString.

(** [bytes.decode('utf-8')] on the one byte [msvcrt.getch()] returns: bytes
    below 0x80 are the ASCII characters, every other single byte is not a
    complete UTF-8 sequence. *)
Definition decode_utf8 (b : byte) : M ascii :=
  if (Byte.to_N b <? 128)%N then ret (ascii_of_byte b)
  else raise (Exc UnicodeDecodeError "'utf-8' codec can't decode byte in position 0").

Inductive loop_ctl : Type := Continue | Break.

(** One turn of the loop.  [k] is [None] when [msvcrt.kbhit()] is false and
    [Some b] when it is true and [msvcrt.getch()] returns [b]. *)
Definition monitor_keyboard_iteration (k : option byte) : M loop_ctl :=
  ctl <- match k with
         | Some b =>
             c <- decode_utf8 b ;;
             let key := lower_ascii c in
             if Ascii.eqb key "s" then
               old <- get_is_safe_status ;;
               set_is_safe_status (negb old) ;;
               s <- get_is_safe_status ;;
               let status_text := if s then "SAFE" else "UNSAFE" in
               print (CR ++ "Current status: " ++ status_text ++ "   ") ;;
               logging_info [Txt ("Safety status changed to: " ++ status_text)] ;;
               ret Continue
             else if Ascii.eqb key "q" then
               print (LF ++ "Keyboard monitoring stopped. Server is still running.") ;;
               ret Break
             else ret Continue
         | None => ret Continue
         end ;;
  match ctl with
  | Break => ret Break
  | Continue => emit Sleep_100ms ;; ret Continue
  end.

(** A run ends in [Val Continue] when the loop is still polling, in
    [Val Break] when the function returned, and in [Raise e] when [e] left
    the loop and ended the thread. *)
Fixpoint keyboard_loop (polls : list (option byte)) : M loop_ctl :=
  match polls with
  | [] => ret Continue
  | k :: rest =>
      ctl <- monitor_keyboard_iteration k ;;
      match ctl with
      | Break => ret Break
      | Continue => keyboard_loop rest
      end
  end.

Definition monitor_keyboard (polls : list (option byte)) : M loop_ctl :=
  print (LF ++ "===== Python Safety Monitor Keyboard Control =====") ;;
  print "Press 's' to toggle safety status (SAFE/UNSAFE)" ;;
  print "Press 'q' to quit (server will continue running)" ;;
  print "Current status: UNSAFE" ;;
  print ("======================================================" ++ LF) ;;
  keyboard_loop polls.

(** ** Sequences of requests *)

(** Requests handled one after the other, each at its own clock reading;
    the answers are collected in order.  A request whose handling raises
    past the application gets no answer here. *)
Fixpoint serve (cfg : config) (reqs : list (Z * request)) (w : world)
  : list response * world :=
  match reqs with
  | [] => ([], w)
  | (now, r) :: rest =>
      match run (app cfg now r) w with
      | (Val resp, w') =>
          let '(resps, w'') := serve cfg rest w' in (resp :: resps, w'')
      | (Raise _, w') => serve cfg rest w'
      end
  end.

(** ** Building requests *)

Definition no_params : params :=
  {| p_Connected := Missing; p_IsSafe := Missing;
     p_ClientID := Missing; p_ClientTransactionID := Missing |}.

Definition IsSafe (ClientTransactionID : param Z) : request :=
  Request GET_issafe
    {| p_Connected := Missing; p_IsSafe := Missing; p_ClientID := Missing;
       p_ClientTransactionID := ClientTransactionID |}.

Definition GetConnected (ClientID ClientTransactionID : param Z) : request :=
  Request GET_connected
    {| p_Connected := Missing; p_IsSafe := Missing; p_ClientID := ClientID;
       p_ClientTransactionID := ClientTransactionID |}.

Definition SetConnected (Connected : param bool) (ClientID ClientTransactionID : param Z)
  : request :=
  Request PUT_connected
    {| p_Connected := Connected; p_IsSafe := Missing; p_ClientID := ClientID;
       p_ClientTransactionID := ClientTransactionID |}.

Definition SetSafe (IsSafe : param bool) (ClientID ClientTransactionID : param Z)
  : request :=
  Request PUT_setissafe
    {| p_Connected := Missing; p_IsSafe := IsSafe; p_ClientID := ClientID;
       p_ClientTransactionID := ClientTransactionID |}.

Definition in_uint32_range (z : Z) : Prop := 1 <= z <= UINT32_MAX.

Definition response_field (k : string) (r : response) : option json := field k (body r).

(** ** Threads

    The route functions run on worker threads.  A thread advances by one
    atomic step at a time, and a schedule says whose turn it is: the
    observed thread or one of the other workers. *)

Definition step {A} (m : M A) (w : world) : M A * world :=
  match m with
  | Atomic f => f w
  | _ => (m, w)
  end.

Inductive turn : Type :=
| Observed
| Other (i : nat).

Fixpoint set_nth {A} (i : nat) (a : A) (l : list A) {struct l} : list A :=
  match l with
  | [] => []
  | x :: rest =>
      match i with
      | O => a :: rest
      | S j => x :: set_nth j a rest
      end
  end.

(** The observed thread, the other workers and the world after a schedule.
    A turn given to a finished thread, or to no thread, changes nothing. *)
Fixpoint interleave {A} (schedule : list turn) (observed : M A)
  (others : list (M response)) (w : world) : M A * list (M response) * world :=
  match schedule with
  | [] => (observed, others, w)
  | Observed :: rest =>
      let (observed', w') := step observed w in
      interleave rest observed' others w'
  | Other i :: rest =>
      match nth_error others i with
      | Some t =>
          let (t', w') := step t w in
          interleave rest observed (set_nth i t' others) w'
      | None => interleave rest observed others w
      end
  end.

Fixpoint observed_turns (schedule : list turn) : nat :=
  match schedule with
  | [] => O
  | Observed :: rest => S (observed_turns rest)
  | Other _ :: rest => observed_turns rest
  end.

(** ** Vocabulary of the statements *)

(** The GET routes. *)
Definition is_read (rt : route) : bool :=
  match rt with
  | PUT_connected | PUT_setissafe => false
  | _ => true
  end.

(** The routes under [/management]. *)
Definition is_management (rt : route) : bool :=
  match rt with
  | GET_management_apiversions
  | GET_management_description
  | GET_management_configureddevices => true
  | _ => false
  end.

(** The routes whose dict has the [ErrorNumber]/[ErrorMessage] keys. *)
Definition has_error_pair (rt : route) : bool :=
  match rt with
  | GET_connected | PUT_connected | PUT_setissafe => true
  | _ => false
  end.

(** The answer of a run, when it returned one. *)
Definition answer {A} (outcome : result A * world) : option A :=
  match fst outcome with
  | Val a => Some a
  | Raise _ => None
  end.

(** A field of the answer to one request. *)
Definition answered_field (k : string) (outcome : result response * world)
  : option json :=
  match answer outcome with
  | Some resp => response_field k resp
  | None => None
  end.

(** The exception, if any, that one turn of the discovery loop meets. *)
Definition turn_error (io : datagram_io) : option exn :=
  match recvfrom_result io with
  | Raise e => Some e
  | Val _ =>
      match sendto_result io with
      | Raise e => Some e
      | Val _ => None
      end
  end.

(** A turn whose error, if it has one, is an [Exception]: a socket or
    encoding error, not an interpreter shutdown. *)
Definition per_message_error (io : datagram_io) : bool :=
  match turn_error io with
  | Some e => is_Exception e
  | None => true
  end.

Definition is_SetConnected (call : Z * request) : Prop :=
  req_route (snd call) = PUT_connected.

(** The [ServerTransactionID] each route writes. *)
Definition server_transaction_id (now : Z) (rt : route) : Z :=
  match rt with
  | GET_management_apiversions => 1
  | GET_management_description => 2
  | GET_management_configureddevices => 3
  | _ => now
  end.

(** The dict a discovery reply carries, with the configuration written out. *)
Definition DiscoveryPayload (cfg : config) : json :=
  JObj [("AlpacaPort", JInt (cfg_alpaca_port cfg));
        ("Manufacturer", JStr (cfg_manufacturer cfg));
        ("ManufacturerVersion", JStr (cfg_driver_version cfg));
        ("DeviceName", JStr (cfg_device_name cfg));
        ("DeviceType", JStr "safetymonitor");
        ("DeviceNumber", JInt (cfg_device_number cfg));
        ("UniqueID", JStr (lower (cfg_device_name cfg) ++ ".safetymonitor.001"))].

Definition error_logged (e : exn) : effect :=
  Logging ERROR [Txt "Error in discovery listener: "; FExc e].

(** What one turn of the discovery loop adds to the effects when its error,
    if any, is caught. *)
Definition turn_effects (cfg : config) (io : datagram_io) : list effect :=
  match recvfrom_result io with
  | Raise e => [error_logged e]
  | Val received =>
      Logging DEBUG [Txt "Received discovery request from "; FAddr (snd received)] ::
      match sendto_result io with
      | Raise e => [error_logged e]
      | Val _ =>
          [Sendto (DiscoveryPayload cfg) (snd received);
           Logging DEBUG [Txt "Sent discovery response to "; FAddr (snd received)]]
      end
  end.

(** Three turns of the discovery loop: a failed receive, a failed send, and
    an empty datagram that is answered. *)
Definition example_turns : list datagram_io :=
  [DatagramIO (Raise (Exc OSError "connection reset")) (Val tt);
   DatagramIO (Val ([xff; xfe], ("192.168.1.20", 50000)))
     (Raise (Exc OSError "network unreachable"));
   DatagramIO (Val ([], ("192.168.1.21", 50001))) (Val tt)].

(** A client that calls SetSafe(true) and, once answered, IsSafe. *)
Definition SetSafe_true_then_IsSafe (cfg : config) (now later : Z)
  (ClientID ClientTransactionID : Z) (p : param Z) : M (response * response) :=
  r1 <- app cfg now (SetSafe (Given true) (Given ClientID) (Given ClientTransactionID)) ;;
  r2 <- app cfg later (IsSafe p) ;;
  ret (r1, r2).

(** The worker threads of a list of calls. *)
Definition workers (cfg : config) (calls : list (Z * request)) : list (M response) :=
  map (fun call => app cfg (fst call) (snd call)) calls.

(** No step of the computation changes the flag. *)
Inductive keeps {A} (flag : world -> bool) : M A -> Prop :=
| keeps_Done (a : A) : keeps flag (Done a)
| keeps_Raised (e : exn) : keeps flag (Raised e)
| keeps_Atomic (f : world -> M A * world) :
    (forall w, flag (snd (f w)) = flag w /\ keeps flag (fst (f w))) ->
    keeps flag (Atomic f).

(** [returns Q n m s]: started where [is_safe_status] is [s], and as long as
    no other thread changes [is_safe_status], the computation [m] returns
    within [n] steps of its own a value that satisfies [Q]. *)
Inductive returns {A} (Q : A -> Prop) : nat -> M A -> bool -> Prop :=
| returns_Done (n : nat) (a : A) (s : bool) : Q a -> returns Q n (Done a) s
| returns_Atomic (n : nat) (f : world -> M A * world) (s : bool) :
    (forall w, is_safe_status w = s ->
               returns Q n (fst (f w)) (is_safe_status (snd (f w)))) ->
    returns Q (S n) (Atomic f) s.

(** The second answer is IsSafe's, with Value true. *)
Definition IsSafe_true (later : Z) (answers : response * response) : Prop :=
  exists c, snd answers = Ok200 (BoolResponse true c later).

Definition example_schedule : list turn :=
  [Other 0; Observed; Observed; Other 1; Other 0; Observed; Observed; Other 0;
   Observed; Other 1; Observed; Other 0; Observed; Observed; Other 0; Observed].

Definition key_s : byte := "s"%byte.
Definition key_q : byte := "q"%byte.
Definition key_arrow_prefix : byte := xe0.

(** ** The flags as the requests drive them *)

Definition in_uint32_rangeb (z : Z) : bool := Z.leb 1 z && Z.leb z UINT32_MAX.

(** Both identifiers of a state call are integers in range. *)
Definition accepted_ids (ClientID ClientTransactionID : param Z) : bool :=
  match ClientID, ClientTransactionID with
  | Given c, Given t => in_uint32_rangeb c && in_uint32_rangeb t
  | _, _ => false
  end.

(** The value a write carries when its three parameters are acceptable. *)
Definition accepted_write (value : param bool) (ClientID ClientTransactionID : param Z)
  : option bool :=
  match value with
  | Given v => if accepted_ids ClientID ClientTransactionID then Some v else None
  | _ => None
  end.

(** The pair (connected, isSafe). *)
Definition flags (w : world) : bool * bool := (connected_status w, is_safe_status w).

(** The flags after one request, read off its route and parameters alone. *)
Definition flags_after_request (r : request) (fl : bool * bool) : bool * bool :=
  let q := req_params r in
  match req_route r with
  | PUT_connected =>
      match accepted_write (p_Connected q) (p_ClientID q) (p_ClientTransactionID q) with
      | Some v => (v, snd fl)
      | None => fl
      end
  | PUT_setissafe =>
      match accepted_write (p_IsSafe q) (p_ClientID q) (p_ClientTransactionID q) with
      | Some v => (fst fl, v)
      | None => fl
      end
  | _ => fl
  end.

(** The routes declared with [ClientTransactionID: int = Query(0)]. *)
Definition is_simple_read (rt : route) : bool :=
  match rt with
  | GET_issafe | GET_description | GET_driverinfo | GET_driverversion
  | GET_name | GET_supportedactions => true
  | _ => false
  end.

(** ** The whole process: route functions, keyboard monitor and discovery
    listener side by side *)

(** A thread whose return value nobody waits for. *)
Definition background {A} (m : M A) : M unit := _ <- m ;; ret tt.

(** As [interleave], with side threads of any kind. *)
Fixpoint interleave_threads {A} (schedule : list turn) (observed : M A)
  (others : list (M unit)) (w : world) : M A * list (M unit) * world :=
  match schedule with
  | [] => (observed, others, w)
  | Observed :: rest =>
      let (observed', w') := step observed w in
      interleave_threads rest observed' others w'
  | Other i :: rest =>
      match nth_error others i with
      | Some t =>
          let (t', w') := step t w in
          interleave_threads rest observed (set_nth i t' others) w'
      | None => interleave_threads rest observed others w
      end
  end.

(** The threads [main] leaves running beside an observed client: the
    route functions of the given calls, the keyboard monitor and the
    discovery listener. *)
Definition side_threads (cfg : config) (calls : list (Z * request))
  (polls : list (option byte)) (ios : list datagram_io) : list (M unit) :=
  (map background (workers cfg calls) ++
   [background (monitor_keyboard polls);
    background (start_discovery_listener cfg ios)])%list.

(** A client that calls SetConnected and, once answered, GetConnected. *)
Definition SetConnected_then_GetConnected (cfg : config) (now later : Z)
  (value : bool) (ClientID t1 t2 : Z) : M (response * response) :=
  r1 <- app cfg now (SetConnected (Given value) (Given ClientID) (Given t1)) ;;
  r2 <- app cfg later (GetConnected (Given ClientID) (Given t2)) ;;
  ret (r1, r2).

(** [returns_keeping flag Q n m s]: started where [flag] is [s], and as long
    as no other thread changes [flag], the computation [m] returns within
    [n] steps of its own a value that satisfies [Q]. *)
Inductive returns_keeping {A} (flag : world -> bool) (Q : A -> Prop)
  : nat -> M A -> bool -> Prop :=
| returns_keeping_Done (n : nat) (a : A) (s : bool) :
    Q a -> returns_keeping flag Q n (Done a) s
| returns_keeping_Atomic (n : nat) (f : world -> M A * world) (s : bool) :
    (forall w, flag w = s ->
               returns_keeping flag Q n (fst (f w)) (flag (snd (f w)))) ->
    returns_keeping flag Q (S n) (Atomic f) s.

Definition is_not_SetConnected (call : Z * request) : Prop :=
  req_route (snd call) <> PUT_connected.

(** The second answer is GetConnected's, with the given Value. *)
Definition GetConnected_answers (value : bool) (answers : response * response) : Prop :=
  exists b, snd answers = Ok200 b /\ field "Value" b = Some (JBool value).

(** ** Reading a run of the keyboard monitor and of the listener *)

(** The key as the monitor compares it. *)
Definition key_of (b : byte) : ascii := lower_ascii (ascii_of_byte b).

Definition is_undecodable (k : option byte) : bool :=
  match k with
  | Some b => negb (Byte.to_N b <? 128)%N
  | None => false
  end.

Definition is_toggle (k : option byte) : bool :=
  match k with
  | Some b => (Byte.to_N b <? 128)%N && Ascii.eqb (key_of b) "s"
  | None => false
  end.

Definition is_quit (k : option byte) : bool :=
  match k with
  | Some b => (Byte.to_N b <? 128)%N && Ascii.eqb (key_of b) "q"
  | None => false
  end.

(** A poll that neither quits nor fails to decode. *)
Definition keeps_polling (k : option byte) : bool :=
  negb (is_quit k) && negb (is_undecodable k).

(** Whether the polls hold an odd number of toggle keys. *)
Fixpoint toggled (polls : list (option byte)) : bool :=
  match polls with
  | [] => false
  | k :: rest => xorb (is_toggle k) (toggled rest)
  end.

(** The datagrams sent, in order. *)
Fixpoint sent (es : list effect) : list (json * address) :=
  match es with
  | [] => []
  | Sendto payload to :: rest => (payload, to) :: sent rest
  | _ :: rest => sent rest
  end.

(** The senders of the turns that received a datagram and sent the reply. *)
Fixpoint answered (ios : list datagram_io) : list address :=
  match ios with
  | [] => []
  | io :: rest =>
      match recvfrom_result io, sendto_result io with
      | Val received, Val _ => snd received :: answered rest
      | _, _ => answered rest
      end
  end.

Definition example_polls : list (option byte) :=
  [None; Some key_s; Some "x"%byte; Some "S"%byte; None; Some key_s].

Definition example_process_schedule : list turn :=
  [Other 2; Observed; Other 0; Other 3; Observed; Other 2; Other 2; Observed;
   Other 1; Observed; Other 3; Other 2; Observed; Other 0; Observed; Other 2].

(** ** Letters *)




(** The fields that identify the device. *)
Definition identity_keys : list string :=
  ["DeviceName"; "DeviceType"; "DeviceNumber"; "UniqueID"].

(** ** Loading the configuration (lines 36-83)

    The values [yaml.safe_load] can return, for documents made of nulls,
    booleans, integers, strings, sequences and mappings with string keys.
    A mapping is kept as its key/value pairs in document order. *)

























(** ** The parameters beside ClientTransactionID *)

(** Whether the parameters a route declares beside [ClientTransactionID]
    pass their declarations: [ClientID] in range for the three state calls,
    and the boolean of the two writes present and parsable.  The simple
    reads and the management routes declare no other parameter. *)
Definition other_parameters_accepted (r : request) : bool :=
  let q := req_params r in
  match req_route r with
  | GET_connected =>
      match p_ClientID q with
      | Given c => in_uint32_rangeb c
      | _ => false
      end
  | PUT_connected =>
      match p_Connected q, p_ClientID q with
      | Given _, Given c => in_uint32_rangeb c
      | _, _ => false
      end
  | PUT_setissafe =>
      match p_IsSafe q, p_ClientID q with
      | Given _, Given c => in_uint32_rangeb c
      | _, _ => false
      end
  | _ => true
  end.

(** * Properties *)

Ltac split_request r :=
  let rt := fresh "rt" in
  let con := fresh "con" in
  let saf := fresh "saf" in
  let cid := fresh "cid" in
  let ctid := fresh "ctid" in
  destruct r as [rt [con saf cid ctid]];
  cbn [req_route req_params p_Connected p_IsSafe p_ClientID p_ClientTransactionID] in *.

(** Runs the parameter checks of a route by cases on the parameters. *)
Ltac validate :=
  unfold app, bind_route, simple_read, int_with_default, int_required_in_range,
    bool_required;
  cbn [req_route req_params p_Connected p_IsSafe p_ClientID p_ClientTransactionID];
  repeat match goal with
    | |- context [match ?p with Missing => _ | Unparsable => _ | Given _ => _ end] =>
        is_var p; destruct p
    | |- context [Z.leb ?a ?b] => destruct (Z.leb_spec a b)
    end.

(** Checks, step by step, that a computation leaves a flag alone. *)
Ltac keeps_steps :=
  cbn;
  repeat (apply keeps_Atomic; intros ?; split; [reflexivity | cbn]);
  try apply keeps_Done.

(** ** Computations *)

Lemma M_induction {A} (P : M A -> Prop) :
  (forall a, P (Done a)) ->
  (forall e, P (Raised e)) ->
  (forall step, (forall w, P (fst (step w))) -> P (Atomic step)) ->
  forall m, P m.
Proof.
  intros Hdone Hraised Hatomic. fix IH 1.
  intros [a | e | step]; [apply Hdone | apply Hraised | apply Hatomic].
  intros w. apply IH.
Qed.

Lemma run_bind {A B} (m : M A) (k : A -> M B) (w : world) :
  run (bind m k) w =
  match run m w with
  | (Val a, w') => run (k a) w'
  | (Raise e, w') => (Raise e, w')
  end.
Proof.
  revert w. induction m as [a | e | step IH] using M_induction; intros w;
    cbn [bind run]; try reflexivity.
  specialize (IH w). destruct (step w) as [m' w']. exact (IH w').
Qed.

(** ** The application always answers *)

Lemma app_answers (cfg : config) (now : Z) (r : request) (w : world) :
  exists resp w', run (app cfg now r) w = (Val resp, w').
Proof.
  split_request r.
  destruct rt; validate; (do 2 eexists; reflexivity).
Qed.

Lemma serve_app (cfg : config) (now : Z) (r : request) rest (w : world) resp w' :
  run (app cfg now r) w = (Val resp, w') ->
  serve cfg ((now, r) :: rest) w =
  (resp :: fst (serve cfg rest w'), snd (serve cfg rest w')).
Proof.
  intros H. cbn [serve]. rewrite H. destruct (serve cfg rest w'). reflexivity.
Qed.

Lemma serve_concat (cfg : config) (l1 l2 : list (Z * request)) (w : world) :
  serve cfg (l1 ++ l2) w =
  ((fst (serve cfg l1 w) ++ fst (serve cfg l2 (snd (serve cfg l1 w))))%list,
   snd (serve cfg l2 (snd (serve cfg l1 w)))).
Proof.
  revert w. induction l1 as [| [now r] l1 IH]; intros w.
  - cbn. destruct (serve cfg l2 w). reflexivity.
  - destruct (app_answers cfg now r w) as (resp & w' & H).
    rewrite <- app_comm_cons, !(serve_app _ _ _ _ _ _ _ H), IH. reflexivity.
Qed.

(** ** Reads *)

(** No step of a GET route assigns either flag. *)
Lemma reads_never_assign (cfg : config) (now : Z) (r : request) :
  is_read (req_route r) = true ->
  keeps connected_status (app cfg now r) /\ keeps is_safe_status (app cfg now r).
Proof.
  split_request r. intros Hread.
  destruct rt; try discriminate Hread; validate; split; keeps_steps.
Qed.

(** C10: every GET route of the Device API and Management API layers
    (IsSafe, GetConnected, Description, DriverInfo, DriverVersion, Name,
    SupportedActions, apiversions, description, configureddevices) answers
    and leaves [connected_status] and [is_safe_status] as they were, for any
    parameters and any prior state. *)
Theorem reads_leave_flags (cfg : config) (now : Z) (r : request) (w : world) :
  is_read (req_route r) = true ->
  exists resp w',
    run (app cfg now r) w = (Val resp, w') /\
    connected_status w' = connected_status w /\
    is_safe_status w' = is_safe_status w.
Proof.
  split_request r. intros Hread.
  destruct rt; try discriminate Hread; validate;
    (do 2 eexists; split; [reflexivity | split; reflexivity]).
Qed.

Lemma reads_leave_flags_witness :
  is_read (req_route (GetConnected (Given 1) (Given 1))) = true /\
  exists resp w',
    run (app DEFAULT_CONFIG 1700000000 (GetConnected (Given 1) (Given 1)))
      (World true false []) = (Val resp, w') /\
    connected_status w' = true /\ is_safe_status w' = false.
Proof.
  split; [reflexivity |].
  apply (reads_leave_flags DEFAULT_CONFIG 1700000000
           (GetConnected (Given 1) (Given 1)) (World true false [])).
  reflexivity.
Defined.

(** ** The concrete scenario *)

(** C3: from the default state, IsSafe() answers Value false; SetSafe with
    IsSafe=true, ClientID=1, ClientTransactionID=5 succeeds and echoes 5;
    IsSafe with ClientTransactionID=6 answers Value true and echoes 6. *)
Theorem scenario_set_then_read (cfg : config) (t1 t2 t3 : Z) :
  fst (serve cfg
         [(t1, IsSafe Missing);
          (t2, SetSafe (Given true) (Given 1) (Given 5));
          (t3, IsSafe (Given 6))]
         initial_world) =
  [Ok200 (JObj [("Value", JBool false);
                ("ClientTransactionID", JInt 0);
                ("ServerTransactionID", JInt t1)]);
   Ok200 (JObj [("ClientTransactionID", JInt 5);
                ("ServerTransactionID", JInt t2);
                ("ErrorNumber", JInt 0);
                ("ErrorMessage", JStr "")]);
   Ok200 (JObj [("Value", JBool true);
                ("ClientTransactionID", JInt 6);
                ("ServerTransactionID", JInt t3)])].
Proof. reflexivity. Qed.

(** ** Rejected writes *)

(** C4: a SetConnected call whose ClientID is an integer outside
    [1, 4294967295] is answered with a client error (422), not a server
    fault, and leaves the state, in particular [connected_status], as it
    was. *)
Theorem SetConnected_bad_ClientID_rejected (cfg : config) (now : Z)
  (Connected : param bool) (ClientID : Z) (ClientTransactionID : param Z) (w : world) :
  ~ in_uint32_range ClientID ->
  exists resp w',
    run (app cfg now (SetConnected Connected (Given ClientID) ClientTransactionID)) w
    = (Val resp, w') /\
    client_error resp = true /\
    server_fault resp = false /\
    connected_status w' = connected_status w /\
    w' = w.
Proof.
  unfold in_uint32_range. intros Hout.
  unfold SetConnected. validate; try lia;
    (do 2 eexists; split; [reflexivity | repeat split]).
Qed.

Lemma SetConnected_bad_ClientID_rejected_witness :
  ~ in_uint32_range 0 /\
  exists resp w',
    run (app DEFAULT_CONFIG 1700000000 (SetConnected (Given true) (Given 0) (Given 7)))
      initial_world = (Val resp, w') /\
    client_error resp = true /\
    server_fault resp = false /\
    connected_status w' = connected_status initial_world /\
    w' = initial_world.
Proof.
  assert (H : ~ in_uint32_range 0) by (unfold in_uint32_range; lia).
  split; [exact H |].
  exact (SetConnected_bad_ClientID_rejected DEFAULT_CONFIG 1700000000
           (Given true) 0 (Given 7) initial_world H).
Defined.

(** ** Transaction identifiers *)

Lemma generic_exception_handler_body (now : Z) (exc : exn) (w : world) :
  run (generic_exception_handler now exc) w =
  (Val (ErrorResponse 0 now 1 (exc_str exc)),
   add_effects [Logging ERROR [Txt "Unhandled exception: "; FExc exc]] w).
Proof. reflexivity. Qed.

(** C1, as stated, fails: with ClientTransactionID=5 supplied, the
    management route apiversions answers 200 with ClientTransactionID 0,
    the body built by [generic_exception_handler] carries
    ClientTransactionID 0, and a GetConnected call rejected for its missing
    ClientID gets an answer with no ClientTransactionID field. *)
Lemma ClientTransactionID_not_always_echoed :
  in_uint32_range 5 /\
  answer
    (run (app DEFAULT_CONFIG 1700000000
            (Request GET_management_apiversions
               (Params Missing Missing Missing (Given 5))))
       initial_world)
  = Some (Ok200 (JObj [("Value", JList [JInt 1]);
                       ("ClientTransactionID", JInt 0);
                       ("ServerTransactionID", JInt 1)])) /\
  answered_field "ClientTransactionID"
    (run (app DEFAULT_CONFIG 1700000000
       (Request GET_management_apiversions
          (Params Missing Missing Missing (Given 5))))
       initial_world) = Some (JInt 0) /\
  field "ClientTransactionID"
    (ErrorResponse 0 1700000000 1 "boom") = Some (JInt 0) /\
  answer (run (generic_exception_handler 1700000000 (Exc ValueError "boom")) initial_world)
    = Some (ErrorResponse 0 1700000000 1 "boom") /\
  answer
    (run (app DEFAULT_CONFIG 1700000000 (GetConnected Missing (Given 5))) initial_world)
  = Some (ValidationError422 [JObj [("loc", JList [JStr "query"; JStr "ClientID"])]]) /\
  answered_field "ClientTransactionID"
    (run (app DEFAULT_CONFIG 1700000000 (GetConnected Missing (Given 5))) initial_world)
    = None /\
  JInt 0 <> JInt 5.
Proof.
  unfold in_uint32_range, UINT32_MAX.
  repeat split; try reflexivity; try lia; discriminate.
Qed.

(** C1, amended: a request that supplies a valid ClientTransactionID (an
    integer in [1, 4294967295]) is always answered.  When the other
    parameters its route declares pass validation, the answer is a success
    (200) whose ClientTransactionID equals the supplied value exactly on
    every Device API route (IsSafe, GetConnected, SetConnected, SetSafe,
    Description, DriverInfo, DriverVersion, Name, SupportedActions), and is
    0 on the management routes; when they do not, the answer is the 422
    rejection, which has no ClientTransactionID field.  The body built by
    [generic_exception_handler] always carries ClientTransactionID 0. *)
Theorem ClientTransactionID_echo (cfg : config) (now : Z) (r : request) (w : world)
  (ClientTransactionID : Z) :
  p_ClientTransactionID (req_params r) = Given ClientTransactionID ->
  in_uint32_range ClientTransactionID ->
  (exists resp w',
     run (app cfg now r) w = (Val resp, w') /\
     if other_parameters_accepted r then
       exists b,
         resp = Ok200 b /\
         field "ClientTransactionID" b =
         Some (JInt (if is_management (req_route r) then 0 else ClientTransactionID))
     else
       exists detail,
         resp = ValidationError422 detail /\
         response_field "ClientTransactionID" resp = None) /\
  (forall exc w0, exists b w1,
     run (generic_exception_handler now exc) w0 = (Val b, w1) /\
     field "ClientTransactionID" b = Some (JInt 0)).
Proof.
  intros Hsupplied Hrange. split.
  - unfold in_uint32_range, UINT32_MAX in Hrange.
    split_request r. subst ctid.
    unfold other_parameters_accepted, in_uint32_rangeb.
    cbn [req_route req_params p_Connected p_IsSafe p_ClientID].
    destruct rt; validate; unfold UINT32_MAX in *;
      try (exfalso; lia); cbn [andb];
      (do 2 eexists; split; [reflexivity |]);
      eexists; split; reflexivity.
  - intros exc w0. do 2 eexists. split; [apply generic_exception_handler_body |].
    reflexivity.
Qed.

(** SetSafe with ClientTransactionID=5 and its other parameters valid is
    answered 200 with ClientTransactionID 5. *)
Lemma ClientTransactionID_echo_witness :
  p_ClientTransactionID (req_params (SetSafe (Given true) (Given 1) (Given 5)))
    = Given 5 /\
  in_uint32_range 5 /\
  exists b w',
    run (app DEFAULT_CONFIG 1700000000 (SetSafe (Given true) (Given 1) (Given 5)))
      initial_world = (Val (Ok200 b), w') /\
    field "ClientTransactionID" b = Some (JInt 5).
Proof.
  assert (Hr : in_uint32_range 5) by (unfold in_uint32_range, UINT32_MAX; lia).
  split; [reflexivity | split; [exact Hr |]].
  destruct (ClientTransactionID_echo DEFAULT_CONFIG 1700000000
              (SetSafe (Given true) (Given 1) (Given 5)) initial_world 5
              eq_refl Hr) as [(resp & w' & Hrun & Hecho) _].
  cbn in Hecho. destruct Hecho as (b & Hresp & Hfield).
  exists b, w'. split; [rewrite <- Hresp; exact Hrun | exact Hfield].
Defined.

(** C8, as stated, fails: the management routes answer the constants 1, 2
    and 3 as ServerTransactionID whatever the clock reads. *)
Lemma management_ServerTransactionID_constant :
  answered_field "ServerTransactionID"
    (run (app DEFAULT_CONFIG 1700000000
       (Request GET_management_apiversions no_params)) initial_world)
    = Some (JInt 1) /\
  answered_field "ServerTransactionID"
    (run (app DEFAULT_CONFIG 1700000060
       (Request GET_management_apiversions no_params)) initial_world)
    = Some (JInt 1) /\
  answered_field "ServerTransactionID"
    (run (app DEFAULT_CONFIG 1700000000
       (Request GET_management_description no_params)) initial_world)
    = Some (JInt 2) /\
  answered_field "ServerTransactionID"
    (run (app DEFAULT_CONFIG 1700000000
       (Request GET_management_configureddevices no_params)) initial_world)
    = Some (JInt 3) /\
  JInt 1 <> JInt 1700000000 /\ JInt 1 <> JInt 1700000060.
Proof. repeat split; try reflexivity; discriminate. Qed.

(** C8, amended: every Device API answer that carries a transaction
    context, and the body built by [generic_exception_handler], has
    ServerTransactionID equal to the clock reading taken while the request
    is handled; the management routes apiversions, description and
    configureddevices answer the constants 1, 2 and 3. *)
Theorem ServerTransactionID_per_route (cfg : config) (now : Z) (r : request)
  (w : world) :
  (exists resp w',
     run (app cfg now r) w = (Val resp, w') /\
     match resp with
     | Ok200 b =>
         field "ServerTransactionID" b =
         Some (JInt (server_transaction_id now (req_route r))) /\
         (is_management (req_route r) = false ->
          field "ServerTransactionID" b = Some (JInt now))
     | ValidationError422 _ => response_field "ServerTransactionID" resp = None
     | ExceptionHandled b => field "ServerTransactionID" b = Some (JInt now)
     end) /\
  (forall exc w0, exists b w1,
     run (generic_exception_handler now exc) w0 = (Val b, w1) /\
     field "ServerTransactionID" b = Some (JInt now)).
Proof.
  split.
  - split_request r.
    destruct rt; validate;
      (do 2 eexists; split; [reflexivity |]);
      cbn; try reflexivity; split; try reflexivity; intros; try reflexivity;
      discriminate.
  - intros exc w0. do 2 eexists. split; [apply generic_exception_handler_body |].
    reflexivity.
Qed.

(** ** The error pair *)

(** C2, as stated, fails: the successful answer of IsSafe has neither an
    ErrorNumber nor an ErrorMessage field. *)
Lemma IsSafe_answer_has_no_error_pair :
  answer (run (app DEFAULT_CONFIG 1700000000 (IsSafe (Given 1))) initial_world)
    = Some (Ok200 (BoolResponse false 1 1700000000)) /\
  answered_field "ErrorNumber"
    (run (app DEFAULT_CONFIG 1700000000 (IsSafe (Given 1))) initial_world) = None /\
  answered_field "ErrorMessage"
    (run (app DEFAULT_CONFIG 1700000000 (IsSafe (Given 1))) initial_world) = None /\
  keys (BoolResponse false 1 1700000000)
    = ["Value"; "ClientTransactionID"; "ServerTransactionID"].
Proof. repeat split. Qed.

(** C2, amended: the successful answers of GetConnected, SetConnected and
    SetSafe carry ClientTransactionID, ServerTransactionID, ErrorNumber 0
    and ErrorMessage the empty string; the successful answers of every
    other route (IsSafe, Description, DriverInfo, DriverVersion, Name,
    SupportedActions and the management routes) have exactly the keys
    Value, ClientTransactionID and ServerTransactionID; no route function
    raises. *)
Theorem error_pair_per_route (cfg : config) (now : Z) (r : request) (w : world) :
  exists resp w',
    run (app cfg now r) w = (Val resp, w') /\
    match resp with
    | Ok200 b =>
        if has_error_pair (req_route r) then
          field "ErrorNumber" b = Some (JInt 0) /\
          field "ErrorMessage" b = Some (JStr "") /\
          field "ServerTransactionID" b = Some (JInt now) /\
          exists c, p_ClientTransactionID (req_params r) = Given c /\
                    field "ClientTransactionID" b = Some (JInt c)
        else
          keys b = ["Value"; "ClientTransactionID"; "ServerTransactionID"]
    | ValidationError422 _ => keys (body resp) = ["detail"]
    | ExceptionHandled _ => False
    end.
Proof.
  split_request r.
  destruct rt; validate;
    (do 2 eexists; split; [reflexivity |]);
    cbn; try reflexivity; repeat split; eexists; split; reflexivity.
Qed.

(** ** Independence of the two flags *)

Lemma SetConnected_keeps_is_safe (cfg : config) (call : Z * request) (w : world) :
  is_SetConnected call ->
  is_safe_status (snd (run (app cfg (fst call) (snd call)) w)) = is_safe_status w.
Proof.
  destruct call as [now r]. unfold is_SetConnected. cbn [fst snd].
  split_request r. intros ->. validate; reflexivity.
Qed.

Lemma SetConnected_calls_keep_is_safe (cfg : config) (calls : list (Z * request)) :
  Forall is_SetConnected calls ->
  forall w, is_safe_status (snd (serve cfg calls w)) = is_safe_status w.
Proof.
  induction 1 as [| [now r] calls Hcall _ IH]; intros w; [reflexivity |].
  destruct (app_answers cfg now r w) as (resp & w' & Happ).
  rewrite (serve_app _ _ _ _ _ _ _ Happ). cbn [snd]. rewrite IH.
  pose proof (SetConnected_keeps_is_safe cfg (now, r) w Hcall) as Hkeep.
  cbn [fst snd] in Hkeep. rewrite Happ in Hkeep. exact Hkeep.
Qed.

Lemma IsSafe_answer (cfg : config) (now : Z) (p : param Z) (w : world) :
  p <> Unparsable ->
  exists c w',
    run (app cfg now (IsSafe p)) w = (Val (Ok200 (BoolResponse (is_safe_status w) c now)), w').
Proof.
  intros Hp. unfold IsSafe. validate; try congruence; (do 2 eexists; reflexivity).
Qed.

(** Requests handled one after the other: whatever SetConnected calls come
    before SetSafe(true) and between it and IsSafe, IsSafe answers true. *)
Lemma SetSafe_true_then_IsSafe_in_sequence (cfg : config) (now later : Z)
  (ClientID ClientTransactionID : Z) (w : world)
  (before between : list (Z * request)) (p : param Z) :
  in_uint32_range ClientID ->
  in_uint32_range ClientTransactionID ->
  Forall is_SetConnected before ->
  Forall is_SetConnected between ->
  p <> Unparsable ->
  exists answers c,
    fst (serve cfg
           (before ++
            [(now, SetSafe (Given true) (Given ClientID) (Given ClientTransactionID))] ++
            between ++ [(later, IsSafe p)]) w)
    = (answers ++ [Ok200 (BoolResponse true c later)])%list.
Proof.
  unfold in_uint32_range. intros Hcid Hctid Hbefore Hbetween Hp.
  set (w1 := snd (serve cfg before w)).
  assert (Hset : exists b w2,
             run (app cfg now
               (SetSafe (Given true) (Given ClientID) (Given ClientTransactionID))) w1
             = (Val (Ok200 b), w2) /\ is_safe_status w2 = true).
  { unfold SetSafe. validate; try lia.
    do 2 eexists. split; reflexivity. }
  destruct Hset as (b & w2 & Hset & Hsafe).
  set (w3 := snd (serve cfg between w2)).
  assert (Hsafe3 : is_safe_status w3 = true).
  { unfold w3. rewrite SetConnected_calls_keep_is_safe by assumption. exact Hsafe. }
  destruct (IsSafe_answer cfg later p w3 Hp) as (c & w4 & Hread).
  rewrite Hsafe3 in Hread.
  exists (fst (serve cfg before w) ++ Ok200 b :: fst (serve cfg between w2))%list, c.
  rewrite serve_concat. cbn [fst]. fold w1.
  change ([(now, SetSafe (Given true) (Given ClientID) (Given ClientTransactionID))]
            ++ between ++ [(later, IsSafe p)])%list
    with ((now, SetSafe (Given true) (Given ClientID) (Given ClientTransactionID))
            :: (between ++ [(later, IsSafe p)]))%list.
  rewrite (serve_app _ _ _ _ _ _ _ Hset). cbn [fst].
  rewrite serve_concat. cbn [fst]. fold w3.
  rewrite (serve_app _ _ _ _ _ _ _ Hread). cbn [fst serve].
  rewrite <- app_assoc. reflexivity.
Qed.

(** *** Step by step *)

Lemma SetConnected_never_assigns_is_safe (cfg : config) (call : Z * request) :
  is_SetConnected call ->
  keeps is_safe_status (app cfg (fst call) (snd call)).
Proof.
  destruct call as [now r]. unfold is_SetConnected. cbn [fst snd].
  split_request r. intros ->. validate; keeps_steps.
Qed.

Lemma SetSafe_never_assigns_connected (cfg : config) (now : Z) (saf : param bool)
  (cid ctid : param Z) :
  keeps connected_status (app cfg now (SetSafe saf cid ctid)).
Proof. unfold SetSafe. validate; keeps_steps. Qed.

Lemma workers_keep_is_safe (cfg : config) (calls : list (Z * request)) :
  Forall is_SetConnected calls ->
  Forall (keeps is_safe_status) (workers cfg calls).
Proof.
  unfold workers. induction 1 as [| call calls Hcall _ IH]; cbn [map];
    constructor; [apply SetConnected_never_assigns_is_safe; exact Hcall | exact IH].
Qed.

Lemma keeps_step {A} (flag : world -> bool) (m : M A) (w : world) :
  keeps flag m ->
  flag (snd (step m w)) = flag w /\ keeps flag (fst (step m w)).
Proof.
  intros [a | e | f Hf]; cbn [step fst snd].
  - split; [reflexivity | constructor].
  - split; [reflexivity | constructor].
  - apply Hf.
Qed.

Lemma Forall_set_nth {A} (P : A -> Prop) (i : nat) (a : A) (l : list A) :
  Forall P l -> P a -> Forall P (set_nth i a l).
Proof.
  intros Hl Ha. revert i. induction Hl as [| x l Hx Hl IH]; intros i; cbn [set_nth].
  - constructor.
  - destruct i; constructor; auto.
Qed.

Lemma Forall_nth_error {A} (P : A -> Prop) (i : nat) (a : A) (l : list A) :
  Forall P l -> nth_error l i = Some a -> P a.
Proof.
  intros Hl Hnth. apply nth_error_In in Hnth.
  rewrite Forall_forall in Hl. apply Hl. exact Hnth.
Qed.

Lemma returns_step {A} (Q : A -> Prop) (n : nat) (m : M A) (w : world) :
  returns Q n m (is_safe_status w) ->
  returns Q (Nat.pred n) (fst (step m w)) (is_safe_status (snd (step m w))).
Proof.
  intros H. inversion H as [n0 a s Ha | n0 f s Hf]; subst; cbn [step fst snd Nat.pred].
  - constructor. exact Ha.
  - apply Hf. reflexivity.
Qed.

Lemma returns_Done_inv {A} (Q : A -> Prop) (n : nat) (a : A) (s : bool) :
  returns Q n (Done a) s -> Q a.
Proof. intros H. inversion H. assumption. Qed.

Lemma returns_at_0 {A} (Q : A -> Prop) (m : M A) (s : bool) :
  returns Q 0 m s -> exists a, m = Done a /\ Q a.
Proof. intros H. inversion H; subst. eexists. split; [reflexivity | assumption]. Qed.

(** Other threads that never assign [is_safe_status] do not disturb a
    computation that relies on it only. *)
Lemma interleave_returns {A} (Q : A -> Prop) (schedule : list turn) :
  forall (n : nat) (observed : M A) (others : list (M response)) (w : world),
    returns Q n observed (is_safe_status w) ->
    Forall (keeps is_safe_status) others ->
    returns Q (n - observed_turns schedule)
      (fst (fst (interleave schedule observed others w)))
      (is_safe_status (snd (interleave schedule observed others w))).
Proof.
  induction schedule as [| [| i] rest IH]; intros n observed others w Hret Hothers.
  - cbn. rewrite Nat.sub_0_r. exact Hret.
  - cbn [interleave observed_turns].
    pose proof (returns_step Q n observed w Hret) as Hnext.
    destruct (step observed w) as [observed' w']. cbn [fst snd] in Hnext.
    replace (n - S (observed_turns rest))%nat
      with (Nat.pred n - observed_turns rest)%nat by lia.
    apply IH; assumption.
  - cbn [interleave observed_turns].
    destruct (nth_error others i) as [t |] eqn:Hnth; [| apply IH; assumption].
    pose proof (keeps_step is_safe_status t w
                  (Forall_nth_error _ _ _ _ Hothers Hnth)) as [Hflag Hkeeps].
    destruct (step t w) as [t' w']. cbn [fst snd] in Hflag, Hkeeps.
    apply IH.
    + rewrite Hflag. exact Hret.
    + apply Forall_set_nth; assumption.
Qed.

Lemma SetSafe_true_then_IsSafe_returns (cfg : config) (now later : Z)
  (ClientID ClientTransactionID : Z) (p : param Z) (s : bool) :
  in_uint32_range ClientID ->
  in_uint32_range ClientTransactionID ->
  p <> Unparsable ->
  returns (IsSafe_true later) 9
    (SetSafe_true_then_IsSafe cfg now later ClientID ClientTransactionID p) s.
Proof.
  unfold in_uint32_range. intros Hcid Hctid Hp.
  unfold SetSafe_true_then_IsSafe, SetSafe, IsSafe.
  validate; try lia; try congruence; cbn;
    repeat (apply returns_Atomic;
            let w := fresh "w" in
            let H := fresh "H" in
            intros w H; cbn; try rewrite H);
    apply returns_Done; eexists; reflexivity.
Qed.

(** C5: a successful SetConnected sets [connected_status] to the supplied
    value and none of its steps assigns [is_safe_status]; a successful
    SetSafe sets [is_safe_status] to the supplied value and none of its
    steps assigns [connected_status]; hence, however the steps of concurrent
    SetConnected calls are interleaved with a client that calls
    SetSafe(true) and then IsSafe(), the IsSafe answer has Value true, and
    the client has it after nine steps of its own. *)
Theorem flags_independent (cfg : config) (now later : Z) (value : bool)
  (ClientID ClientTransactionID : Z) (p : param Z) (w : world)
  (calls : list (Z * request)) (schedule : list turn) :
  in_uint32_range ClientID ->
  in_uint32_range ClientTransactionID ->
  p <> Unparsable ->
  Forall is_SetConnected calls ->
  (keeps is_safe_status
     (app cfg now (SetConnected (Given value) (Given ClientID) (Given ClientTransactionID))) /\
   exists b w',
     run (app cfg now
            (SetConnected (Given value) (Given ClientID) (Given ClientTransactionID))) w
     = (Val (Ok200 b), w') /\
     connected_status w' = value /\
     is_safe_status w' = is_safe_status w) /\
  (keeps connected_status
     (app cfg now (SetSafe (Given value) (Given ClientID) (Given ClientTransactionID))) /\
   exists b w',
     run (app cfg now
            (SetSafe (Given value) (Given ClientID) (Given ClientTransactionID))) w
     = (Val (Ok200 b), w') /\
     is_safe_status w' = value /\
     connected_status w' = connected_status w) /\
  (forall r1 r2,
     fst (fst (interleave schedule
                 (SetSafe_true_then_IsSafe cfg now later ClientID ClientTransactionID p)
                 (workers cfg calls) w)) = Done (r1, r2) ->
     exists c, r2 = Ok200 (BoolResponse true c later)) /\
  ((9 <= observed_turns schedule)%nat ->
   exists r1 c,
     fst (fst (interleave schedule
                 (SetSafe_true_then_IsSafe cfg now later ClientID ClientTransactionID p)
                 (workers cfg calls) w))
     = Done (r1, Ok200 (BoolResponse true c later))).
Proof.
  intros Hcid Hctid Hp Hcalls.
  pose proof (interleave_returns (IsSafe_true later) schedule 9 _ _ w
                (SetSafe_true_then_IsSafe_returns cfg now later ClientID
                   ClientTransactionID p (is_safe_status w) Hcid Hctid Hp)
                (workers_keep_is_safe cfg calls Hcalls)) as Hafter.
  unfold in_uint32_range in Hcid, Hctid.
  split; [| split; [| split]].
  - split.
    + apply (SetConnected_never_assigns_is_safe cfg (now, _)). reflexivity.
    + unfold SetConnected. validate; try lia.
      do 2 eexists. split; [reflexivity | split; reflexivity].
  - split.
    + apply SetSafe_never_assigns_connected.
    + unfold SetSafe. validate; try lia.
      do 2 eexists. split; [reflexivity | split; reflexivity].
  - intros r1 r2 Hdone. rewrite Hdone in Hafter.
    apply returns_Done_inv in Hafter. exact Hafter.
  - intros Hturns.
    replace (9 - observed_turns schedule)%nat with 0%nat in Hafter by lia.
    apply returns_at_0 in Hafter. destruct Hafter as ([r1 r2] & Heq & c & Hc).
    cbn [snd] in Hc. subst r2. exists r1, c. exact Heq.
Qed.

Lemma flags_independent_witness :
  in_uint32_range 1 /\
  in_uint32_range 5 /\
  (Missing : param Z) <> Unparsable /\
  Forall is_SetConnected
    [(12, SetConnected (Given false) (Given 1) (Given 3));
     (13, SetConnected (Given true) (Given 0) Missing)] /\
  (keeps is_safe_status
     (app DEFAULT_CONFIG 11 (SetConnected (Given true) (Given 1) (Given 5))) /\
   exists b w',
     run (app DEFAULT_CONFIG 11 (SetConnected (Given true) (Given 1) (Given 5)))
       initial_world
     = (Val (Ok200 b), w') /\
     connected_status w' = true /\
     is_safe_status w' = is_safe_status initial_world) /\
  (keeps connected_status
     (app DEFAULT_CONFIG 11 (SetSafe (Given true) (Given 1) (Given 5))) /\
   exists b w',
     run (app DEFAULT_CONFIG 11 (SetSafe (Given true) (Given 1) (Given 5)))
       initial_world
     = (Val (Ok200 b), w') /\
     is_safe_status w' = true /\
     connected_status w' = connected_status initial_world) /\
  (forall r1 r2,
     fst (fst (interleave example_schedule
                 (SetSafe_true_then_IsSafe DEFAULT_CONFIG 11 14 1 5 Missing)
                 (workers DEFAULT_CONFIG
                    [(12, SetConnected (Given false) (Given 1) (Given 3));
                     (13, SetConnected (Given true) (Given 0) Missing)])
                 initial_world)) = Done (r1, r2) ->
     exists c, r2 = Ok200 (BoolResponse true c 14)) /\
  ((9 <= observed_turns example_schedule)%nat ->
   exists r1 c,
     fst (fst (interleave example_schedule
                 (SetSafe_true_then_IsSafe DEFAULT_CONFIG 11 14 1 5 Missing)
                 (workers DEFAULT_CONFIG
                    [(12, SetConnected (Given false) (Given 1) (Given 3));
                     (13, SetConnected (Given true) (Given 0) Missing)])
                 initial_world))
     = Done (r1, Ok200 (BoolResponse true c 14))).
Proof.
  assert (H1 : in_uint32_range 1) by (unfold in_uint32_range, UINT32_MAX; lia).
  assert (H5 : in_uint32_range 5) by (unfold in_uint32_range, UINT32_MAX; lia).
  assert (Hp : (Missing : param Z) <> Unparsable) by discriminate.
  assert (Hc : Forall is_SetConnected
                 [(12, SetConnected (Given false) (Given 1) (Given 3));
                  (13, SetConnected (Given true) (Given 0) Missing)])
    by (repeat constructor).
  split; [exact H1 |]. split; [exact H5 |]. split; [exact Hp |].
  split; [exact Hc |].
  exact (flags_independent DEFAULT_CONFIG 11 14 true 1 5 Missing initial_world
           _ example_schedule H1 H5 Hp Hc).
Defined.

(** ** Discovery *)

Lemma add_effects_nil (w : world) : add_effects [] w = w.
Proof. destruct w as [c s es]. unfold add_effects. cbn. rewrite app_nil_r. reflexivity. Qed.

Lemma add_effects_add (es1 es2 : list effect) (w : world) :
  add_effects es2 (add_effects es1 w) = add_effects (es1 ++ es2) w.
Proof. unfold add_effects. cbn. rewrite app_assoc. reflexivity. Qed.

Lemma discovery_iteration_caught (cfg : config) (io : datagram_io) (w : world) :
  per_message_error io = true ->
  run (discovery_iteration cfg io) w = (Val tt, add_effects (turn_effects cfg io) w).
Proof.
  destruct io as [[[data addr] | e] sent]; unfold per_message_error, turn_error;
    cbn [recvfrom_result sendto_result].
  - destruct sent as [[] | e]; intros Hexc;
      unfold discovery_iteration, try_except_Exception, bind, recvfrom, sendto,
        turn_effects, logging_debug, logging_error, emit, add_effects;
      cbn; [| rewrite Hexc; cbn]; rewrite <- ?app_assoc; reflexivity.
  - intros Hexc.
    unfold discovery_iteration, try_except_Exception, bind, recvfrom, turn_effects.
    cbn. rewrite Hexc. reflexivity.
Qed.

Lemma discovery_loop_caught (cfg : config) (ios : list datagram_io) :
  Forall (fun io => per_message_error io = true) ios ->
  forall w,
    run (discovery_loop cfg ios) w = (Val tt, add_effects (flat_map (turn_effects cfg) ios) w).
Proof.
  induction 1 as [| io ios Hio _ IH]; intros w.
  - cbn. rewrite add_effects_nil. reflexivity.
  - cbn [discovery_loop flat_map].
    rewrite run_bind, (discovery_iteration_caught cfg io w Hio), IH, add_effects_add.
    reflexivity.
Qed.


(** C7: when every error met while handling a datagram is an [Exception]
    (a receive error or a send error), the listener never leaves its loop:
    after any number of turns it is still running, every such error has
    been logged, and every datagram whose send succeeded has been answered,
    whatever failed before it. *)
Theorem discovery_listener_survives_errors (cfg : config) (ios : list datagram_io)
  (w : world) :
  Forall (fun io => per_message_error io = true) ios ->
  exists w',
    run (start_discovery_listener cfg ios) w = (Val tt, w') /\
    (forall io e,
       In io ios -> turn_error io = Some e ->
       In (Logging ERROR [Txt "Error in discovery listener: "; FExc e]) (effects w')) /\
    (forall io data addr,
       In io ios ->
       recvfrom_result io = Val (data, addr) -> sendto_result io = Val tt ->
       In (Sendto (DiscoveryPayload cfg) addr) (effects w')).
Proof.
  intros Hios. eexists. split.
  - unfold start_discovery_listener. rewrite run_bind. cbn.
    rewrite (discovery_loop_caught cfg ios Hios). reflexivity.
  - cbn [effects add_effects]. split.
    + intros io e Hin Herr. apply in_or_app. right. apply in_flat_map.
      exists io. split; [exact Hin |].
      unfold turn_error in Herr. unfold turn_effects.
      destruct (recvfrom_result io) as [received | e0].
      * destruct (sendto_result io) as [u | e1]; [discriminate |].
        injection Herr as ->. right. left. reflexivity.
      * injection Herr as ->. left. reflexivity.
    + intros io data addr Hin Hrecv Hsend. apply in_or_app. right.
      apply in_flat_map. exists io. split; [exact Hin |].
      unfold turn_effects. rewrite Hrecv, Hsend. right. left. reflexivity.
Qed.

Lemma discovery_listener_survives_errors_witness :
  Forall (fun io => per_message_error io = true) example_turns /\
  exists w',
    run (start_discovery_listener DEFAULT_CONFIG example_turns) initial_world = (Val tt, w') /\
    (forall io e,
       In io example_turns -> turn_error io = Some e ->
       In (Logging ERROR [Txt "Error in discovery listener: "; FExc e]) (effects w')) /\
    (forall io data addr,
       In io example_turns ->
       recvfrom_result io = Val (data, addr) -> sendto_result io = Val tt ->
       In (Sendto (DiscoveryPayload DEFAULT_CONFIG) addr) (effects w')).
Proof.
  assert (H : Forall (fun io => per_message_error io = true) example_turns)
    by (repeat constructor).
  split; [exact H |].
  exact (discovery_listener_survives_errors DEFAULT_CONFIG example_turns
           initial_world H).
Defined.

(** ** Keyboard monitor *)

(** The toggle key negates [is_safe_status] and touches nothing else. *)
Lemma toggle_key_negates (w : world) :
  exists w',
    run (monitor_keyboard_iteration (Some key_s)) w = (Val Continue, w') /\
    is_safe_status w' = negb (is_safe_status w) /\
    connected_status w' = connected_status w.
Proof. eexists. split; [reflexivity | split; reflexivity]. Qed.

(** Two presses of the toggle key restore [is_safe_status]. *)
Lemma toggle_key_twice (w : world) :
  exists w',
    run (keyboard_loop [Some key_s; Some key_s]) w = (Val Continue, w') /\
    is_safe_status w' = is_safe_status w /\
    connected_status w' = connected_status w.
Proof.
  eexists. split; [reflexivity |]. cbn. split; [apply negb_involutive | reflexivity].
Qed.

(** A toggle is seen by the next IsSafe call. *)
Lemma toggle_then_IsSafe (cfg : config) (now : Z) (w : world) :
  exists w1 w2,
    run (monitor_keyboard_iteration (Some key_s)) w = (Val Continue, w1) /\
    run (app cfg now (IsSafe Missing)) w1 =
    (Val (Ok200 (BoolResponse (negb (is_safe_status w)) 0 now)), w2).
Proof. do 2 eexists. split; reflexivity. Qed.

(** The quit key ends the loop and leaves the flags. *)
Lemma quit_key_breaks (polls : list (option byte)) (w : world) :
  exists w',
    run (keyboard_loop (Some key_q :: polls)) w = (Val Break, w') /\
    is_safe_status w' = is_safe_status w /\
    connected_status w' = connected_status w.
Proof. eexists. split; [reflexivity | split; reflexivity]. Qed.

(** An ASCII key other than s, S, q and Q changes nothing and the loop goes
    on polling. *)
Lemma other_ascii_key_ignored (b : byte) (w : world) :
  (Byte.to_N b < 128)%N ->
  lower_ascii (ascii_of_byte b) <> "s"%char ->
  lower_ascii (ascii_of_byte b) <> "q"%char ->
  run (monitor_keyboard_iteration (Some b)) w = (Val Continue, add_effects [Sleep_100ms] w).
Proof.
  intros Hlt Hs Hq.
  unfold monitor_keyboard_iteration, decode_utf8, bind, ret.
  apply N.ltb_lt in Hlt. rewrite Hlt.
  apply Ascii.eqb_neq in Hs, Hq. rewrite Hs, Hq. reflexivity.
Qed.

(** A byte from 0x80 up is not decodable on its own: the error leaves the
    loop, whatever is polled afterwards. *)
Lemma undecodable_key_raises (b : byte) (polls : list (option byte)) (w : world) :
  (128 <= Byte.to_N b)%N ->
  exists e,
    run (keyboard_loop (Some b :: polls)) w = (Raise e, w) /\
    exc_cls e = UnicodeDecodeError.
Proof.
  intros Hge. apply N.ltb_ge in Hge.
  eexists. cbn [keyboard_loop].
  unfold monitor_keyboard_iteration, decode_utf8, bind, raise. rewrite Hge.
  split; reflexivity.
Qed.

(** C9 at the key byte 0xE0, the prefix [msvcrt.getch()] returns for an
    arrow key: it is neither the toggle key nor the quit key, yet
    [decode('utf-8')] raises on it, nothing in [monitor_keyboard] catches
    the error, and the loop ends there; the keys pressed afterwards are
    never read, so a later toggle key no longer changes [is_safe_status]. *)
Theorem arrow_key_ends_keyboard_monitor (polls : list (option byte)) (w : world) :
  key_arrow_prefix <> key_s /\
  key_arrow_prefix <> key_q /\
  (exists e,
     run (keyboard_loop (Some key_arrow_prefix :: polls)) w = (Raise e, w) /\
     exc_cls e = UnicodeDecodeError) /\
  (exists e w',
     run (monitor_keyboard [Some key_arrow_prefix; Some key_s]) initial_world = (Raise e, w') /\
     is_safe_status w' = false).
Proof.
  split; [discriminate |]. split; [discriminate |]. split.
  - eexists. split; reflexivity.
  - do 2 eexists. split; reflexivity.
Qed.

(** * Further properties *)

(** ** Validation at the boundary *)

Lemma in_uint32_rangeb_true (z : Z) :
  in_uint32_rangeb z = true <-> in_uint32_range z.
Proof.
  unfold in_uint32_rangeb, in_uint32_range.
  rewrite andb_true_iff, !Z.leb_le. reflexivity.
Qed.

(** Runs the parameter checks of a route against [accepted_ids]. *)
Ltac validate_ids :=
  unfold accepted_write, accepted_ids, in_uint32_rangeb;
  validate; cbn [andb negb].

(** X1: SetConnected, SetSafe and GetConnected are answered 200 exactly when
    the boolean (for the writes) is present and parsable and ClientID and
    ClientTransactionID are both integers in [1, 4294967295]; an accepted
    write leaves the flag at the value sent.  In every other case the
    answer is 422, names at least one parameter, and the world is exactly
    as before: no flag changed, nothing printed, nothing logged. *)
Theorem state_calls_accepted_or_without_effect (cfg : config) (now : Z)
  (value : param bool) (ClientID ClientTransactionID : param Z) (w : world) :
  match accepted_write value ClientID ClientTransactionID with
  | Some v =>
      (exists b w',
         run (app cfg now (SetConnected value ClientID ClientTransactionID)) w
         = (Val (Ok200 b), w') /\ connected_status w' = v) /\
      (exists b w',
         run (app cfg now (SetSafe value ClientID ClientTransactionID)) w
         = (Val (Ok200 b), w') /\ is_safe_status w' = v)
  | None =>
      (exists detail,
         run (app cfg now (SetConnected value ClientID ClientTransactionID)) w
         = (Val (ValidationError422 detail), w) /\ detail <> []) /\
      (exists detail,
         run (app cfg now (SetSafe value ClientID ClientTransactionID)) w
         = (Val (ValidationError422 detail), w) /\ detail <> [])
  end /\
  if accepted_ids ClientID ClientTransactionID then
    exists b w',
      run (app cfg now (GetConnected ClientID ClientTransactionID)) w
      = (Val (Ok200 b), w') /\
      field "Value" b = Some (JBool (connected_status w))
  else
    exists detail,
      run (app cfg now (GetConnected ClientID ClientTransactionID)) w
      = (Val (ValidationError422 detail), w) /\ detail <> [].
Proof.
  split.
  - unfold SetConnected, SetSafe. validate_ids;
      (split; [ first [ do 2 eexists; split; reflexivity
                      | eexists; split; [reflexivity | discriminate] ]
              | first [ do 2 eexists; split; reflexivity
                      | eexists; split; [reflexivity | discriminate] ] ]).
  - unfold GetConnected. validate_ids;
      first [ do 2 eexists; split; reflexivity
            | eexists; split; [reflexivity | discriminate] ].
Qed.

(** X2: on every route, a request answered 422 leaves the world exactly as
    it was, and a request answered 200 only appends to the effects, at
    least one logging call among them. *)
Theorem rejected_requests_leave_no_trace (cfg : config) (now : Z) (r : request)
  (w : world) :
  exists resp w',
    run (app cfg now r) w = (Val resp, w') /\
    match resp with
    | ValidationError422 _ => w' = w
    | Ok200 _ =>
        exists lvl msg es,
          effects w' = (effects w ++ Logging lvl msg :: es)%list
    | ExceptionHandled _ => False
    end.
Proof.
  split_request r.
  destruct rt; validate;
    (do 2 eexists; split; [reflexivity |]);
    try reflexivity;
    cbn; rewrite <- ?app_assoc; cbn; do 3 eexists; reflexivity.
Qed.

(** X3: the simple reads (IsSafe, Description, DriverInfo, DriverVersion,
    Name, SupportedActions) do not range-check ClientTransactionID: any
    integer, also 0, a negative one or one above 4294967295, is accepted and
    echoed; an absent one is answered as 0; only an unparsable one is
    rejected.  ClientID and the other parameters are not looked at. *)
Theorem simple_reads_echo_any_integer (cfg : config) (now : Z) (r : request)
  (w : world) :
  is_simple_read (req_route r) = true ->
  exists resp w',
    run (app cfg now r) w = (Val resp, w') /\
    match p_ClientTransactionID (req_params r) with
    | Given z =>
        exists b, resp = Ok200 b /\ field "ClientTransactionID" b = Some (JInt z)
    | Missing =>
        exists b, resp = Ok200 b /\ field "ClientTransactionID" b = Some (JInt 0)
    | Unparsable => client_error resp = true /\ w' = w
    end.
Proof.
  split_request r. intros Hsimple.
  destruct rt; try discriminate Hsimple; validate;
    (do 2 eexists; split; [reflexivity |]);
    first [ eexists; split; reflexivity | split; reflexivity ].
Qed.

Lemma simple_reads_echo_any_integer_witness :
  is_simple_read (req_route (Request GET_name (Params Unparsable Missing (Given 0) (Given (-7)))))
    = true /\
  exists resp w',
    run (app DEFAULT_CONFIG 1700000000
           (Request GET_name (Params Unparsable Missing (Given 0) (Given (-7))))) initial_world
    = (Val resp, w') /\
    match p_ClientTransactionID
            (req_params (Request GET_name (Params Unparsable Missing (Given 0) (Given (-7)))))
    with
    | Given z =>
        exists b, resp = Ok200 b /\ field "ClientTransactionID" b = Some (JInt z)
    | Missing =>
        exists b, resp = Ok200 b /\ field "ClientTransactionID" b = Some (JInt 0)
    | Unparsable => client_error resp = true /\ w' = initial_world
    end.
Proof.
  split; [reflexivity |].
  exact (simple_reads_echo_any_integer DEFAULT_CONFIG 1700000000
           (Request GET_name (Params Unparsable Missing (Given 0) (Given (-7))))
           initial_world eq_refl).
Defined.

(** ** Last write wins *)

Lemma flags_after_one_request (cfg : config) (now : Z) (r : request) (w : world) :
  flags (snd (run (app cfg now r) w)) = flags_after_request r (flags w).
Proof.
  unfold flags, flags_after_request. split_request r.
  destruct rt; validate_ids; reflexivity.
Qed.

(** X4: after any sequence of requests handled one after the other, the two
    flags are what the accepted writes make them, in order: each accepted
    SetConnected overwrites [connected_status], each accepted SetSafe
    overwrites [is_safe_status], and reads and rejected requests change
    neither. *)
Theorem flags_after_requests (cfg : config) (reqs : list (Z * request)) (w : world) :
  flags (snd (serve cfg reqs w)) =
  fold_left (fun fl call => flags_after_request (snd call) fl) reqs (flags w).
Proof.
  revert w. induction reqs as [| [now r] reqs IH]; intros w; [reflexivity |].
  destruct (app_answers cfg now r w) as (resp & w' & Happ).
  rewrite (serve_app _ _ _ _ _ _ _ Happ). cbn [snd fold_left].
  rewrite IH. f_equal.
  pose proof (flags_after_one_request cfg now r w) as Hone.
  rewrite Happ in Hone. exact Hone.
Qed.

(** ** Flags that a thread never assigns *)

Lemma keeps_inv {A} (flag : world -> bool) (f : world -> M A * world) :
  keeps flag (Atomic f) ->
  forall w, flag (snd (f w)) = flag w /\ keeps flag (fst (f w)).
Proof. intros H. inversion H. assumption. Qed.

Lemma keeps_bind {A B} (flag : world -> bool) (m : M A) (k : A -> M B) :
  keeps flag m -> (forall a, keeps flag (k a)) -> keeps flag (bind m k).
Proof.
  intros Hm Hk. induction m as [a | e | f IH] using M_induction; cbn [bind].
  - apply Hk.
  - constructor.
  - apply keeps_Atomic. intros w.
    destruct (keeps_inv flag f Hm w) as [Hflag Hnext]. specialize (IH w).
    destruct (f w) as [m' w']. cbn [fst snd] in *. split; auto.
Qed.

Lemma keeps_try_except {A} (flag : world -> bool) (m : M A) (h : exn -> M A) :
  keeps flag m -> (forall e, keeps flag (h e)) ->
  keeps flag (try_except_Exception m h).
Proof.
  intros Hm Hh. induction m as [a | e | f IH] using M_induction;
    cbn [try_except_Exception].
  - constructor.
  - destruct (is_Exception e); [apply Hh | constructor].
  - apply keeps_Atomic. intros w.
    destruct (keeps_inv flag f Hm w) as [Hflag Hnext]. specialize (IH w).
    destruct (f w) as [m' w']. cbn [fst snd] in *. split; auto.
Qed.

Lemma keeps_run {A} (flag : world -> bool) (m : M A) (w : world) :
  keeps flag m -> flag (snd (run m w)) = flag w.
Proof.
  revert w. induction m as [a | e | f IH] using M_induction; intros w Hm;
    cbn [run]; try reflexivity.
  destruct (keeps_inv flag f Hm w) as [Hflag Hnext]. specialize (IH w).
  destruct (f w) as [m' w']. cbn [fst snd] in *.
  rewrite IH by assumption. exact Hflag.
Qed.

Lemma keeps_background {A} (flag : world -> bool) (m : M A) :
  keeps flag m -> keeps flag (background m).
Proof. intros Hm. apply keeps_bind; [exact Hm | intros; constructor]. Qed.

Lemma keeps_emit (flag : world -> bool) (e : effect) :
  (forall es w, flag (add_effects es w) = flag w) -> keeps flag (emit e).
Proof.
  intros Hflag. apply keeps_Atomic. intros w. cbn. split; [apply Hflag | constructor].
Qed.

Lemma connected_status_add_effects (es : list effect) (w : world) :
  connected_status (add_effects es w) = connected_status w.
Proof. reflexivity. Qed.

Lemma is_safe_status_add_effects (es : list effect) (w : world) :
  is_safe_status (add_effects es w) = is_safe_status w.
Proof. reflexivity. Qed.

Lemma not_SetConnected_never_assigns_connected (cfg : config) (call : Z * request) :
  is_not_SetConnected call ->
  keeps connected_status (app cfg (fst call) (snd call)).
Proof.
  destruct call as [now r]. unfold is_not_SetConnected. cbn [fst snd].
  split_request r. intros Hroute.
  destruct rt; try congruence; validate; keeps_steps.
Qed.

Ltac keeps_all :=
  cbn;
  repeat first
    [ apply keeps_Done
    | apply keeps_Raised
    | apply keeps_Atomic; intros ?; split; [reflexivity | cbn] ].

Lemma keyboard_iteration_never_assigns_connected (k : option byte) :
  keeps connected_status (monitor_keyboard_iteration k).
Proof.
  unfold monitor_keyboard_iteration. destruct k as [b |]; [| keeps_all].
  unfold decode_utf8. destruct (Byte.to_N b <? 128)%N; [| keeps_all].
  cbn [ret bind].
  destruct (Ascii.eqb (lower_ascii (ascii_of_byte b)) "s"); [keeps_all |].
  destruct (Ascii.eqb (lower_ascii (ascii_of_byte b)) "q"); keeps_all.
Qed.

Lemma keyboard_loop_never_assigns_connected (polls : list (option byte)) :
  keeps connected_status (keyboard_loop polls).
Proof.
  induction polls as [| k polls IH]; cbn [keyboard_loop]; [constructor |].
  apply keeps_bind; [apply keyboard_iteration_never_assigns_connected |].
  intros [|]; [exact IH | constructor].
Qed.

Lemma monitor_keyboard_never_assigns_connected (polls : list (option byte)) :
  keeps connected_status (monitor_keyboard polls).
Proof.
  unfold monitor_keyboard, print.
  repeat (apply keeps_bind;
          [apply keeps_emit, connected_status_add_effects | intros _]).
  apply keyboard_loop_never_assigns_connected.
Qed.

Lemma discovery_iteration_never_assigns (flag : world -> bool) (cfg : config)
  (io : datagram_io) :
  (forall es w, flag (add_effects es w) = flag w) ->
  keeps flag (discovery_iteration cfg io).
Proof.
  intros Hflag. unfold discovery_iteration.
  apply keeps_try_except;
    [| intros e; apply keeps_emit, Hflag].
  apply keeps_bind.
  - apply keeps_Atomic. intros w. cbn [fst snd]. split; [reflexivity |].
    destruct (recvfrom_result io); constructor.
  - intros received. apply keeps_bind; [apply keeps_emit, Hflag | intros _].
    apply keeps_bind; [| intros _; apply keeps_emit, Hflag].
    apply keeps_Atomic. intros w.
    destruct (sendto_result io); cbn [fst snd]; split;
      try apply Hflag; try reflexivity; constructor.
Qed.

Lemma discovery_listener_never_assigns (flag : world -> bool) (cfg : config)
  (ios : list datagram_io) :
  (forall es w, flag (add_effects es w) = flag w) ->
  keeps flag (start_discovery_listener cfg ios).
Proof.
  intros Hflag. unfold start_discovery_listener.
  apply keeps_bind; [apply keeps_emit, Hflag | intros _].
  induction ios as [| io ios IH]; cbn [discovery_loop]; [constructor |].
  apply keeps_bind; [apply discovery_iteration_never_assigns, Hflag | intros _; exact IH].
Qed.

Lemma side_threads_keep_connected (cfg : config) (calls : list (Z * request))
  (polls : list (option byte)) (ios : list datagram_io) :
  Forall is_not_SetConnected calls ->
  Forall (keeps connected_status) (side_threads cfg calls polls ios).
Proof.
  intros Hcalls. unfold side_threads. apply Forall_app. split.
  - unfold workers. induction Hcalls as [| call calls Hcall _ IH]; cbn [map];
      constructor; [| exact IH].
    apply keeps_background, not_SetConnected_never_assigns_connected, Hcall.
  - apply Forall_cons; [| apply Forall_cons; [| apply Forall_nil]].
    + apply keeps_background, monitor_keyboard_never_assigns_connected.
    + apply keeps_background, discovery_listener_never_assigns,
        connected_status_add_effects.
Qed.

Lemma returns_keeping_step {A} (flag : world -> bool) (Q : A -> Prop) (n : nat)
  (m : M A) (w : world) :
  returns_keeping flag Q n m (flag w) ->
  returns_keeping flag Q (Nat.pred n) (fst (step m w)) (flag (snd (step m w))).
Proof.
  intros H. inversion H as [n0 a s Ha | n0 f s Hf]; subst; cbn [step fst snd Nat.pred].
  - constructor. exact Ha.
  - apply Hf. reflexivity.
Qed.

Lemma returns_keeping_Done_inv {A} (flag : world -> bool) (Q : A -> Prop) (n : nat)
  (a : A) (s : bool) :
  returns_keeping flag Q n (Done a) s -> Q a.
Proof. intros H. inversion H. assumption. Qed.

Lemma returns_keeping_at_0 {A} (flag : world -> bool) (Q : A -> Prop) (m : M A)
  (s : bool) :
  returns_keeping flag Q 0 m s -> exists a, m = Done a /\ Q a.
Proof. intros H. inversion H; subst. eexists. split; [reflexivity | assumption]. Qed.

Lemma interleave_threads_returns {A} (flag : world -> bool) (Q : A -> Prop)
  (schedule : list turn) :
  forall (n : nat) (observed : M A) (others : list (M unit)) (w : world),
    returns_keeping flag Q n observed (flag w) ->
    Forall (keeps flag) others ->
    returns_keeping flag Q (n - observed_turns schedule)
      (fst (fst (interleave_threads schedule observed others w)))
      (flag (snd (interleave_threads schedule observed others w))).
Proof.
  induction schedule as [| [| i] rest IH]; intros n observed others w Hret Hothers.
  - cbn. rewrite Nat.sub_0_r. exact Hret.
  - cbn [interleave_threads observed_turns].
    pose proof (returns_keeping_step flag Q n observed w Hret) as Hnext.
    destruct (step observed w) as [observed' w']. cbn [fst snd] in Hnext.
    replace (n - S (observed_turns rest))%nat
      with (Nat.pred n - observed_turns rest)%nat by lia.
    apply IH; assumption.
  - cbn [interleave_threads observed_turns].
    destruct (nth_error others i) as [t |] eqn:Hnth; [| apply IH; assumption].
    pose proof (keeps_step flag t w
                  (Forall_nth_error _ _ _ _ Hothers Hnth)) as [Hflag Hkeeps].
    destruct (step t w) as [t' w']. cbn [fst snd] in Hflag, Hkeeps.
    apply IH.
    + rewrite Hflag. exact Hret.
    + apply Forall_set_nth; assumption.
Qed.

Lemma SetConnected_then_GetConnected_returns (cfg : config) (now later : Z)
  (value : bool) (ClientID t1 t2 : Z) (s : bool) :
  in_uint32_range ClientID -> in_uint32_range t1 -> in_uint32_range t2 ->
  returns_keeping connected_status (GetConnected_answers value) 6
    (SetConnected_then_GetConnected cfg now later value ClientID t1 t2) s.
Proof.
  unfold in_uint32_range. intros Hcid Ht1 Ht2.
  unfold SetConnected_then_GetConnected, SetConnected, GetConnected.
  validate; try lia; cbn;
    repeat (apply returns_keeping_Atomic;
            let w := fresh "w" in
            let H := fresh "H" in
            intros w H; cbn; try rewrite H);
    apply returns_keeping_Done; eexists; split; reflexivity.
Qed.

(** X5: SetConnected(v) followed by GetConnected returns v, whatever runs in
    between: the steps of any concurrent requests other than SetConnected
    (reads, SetSafe, rejected calls), of the keyboard monitor on any keys
    and of the discovery listener on any datagrams, in any order.  The
    client has its answer after six steps of its own. *)
Theorem SetConnected_then_GetConnected_round_trip (cfg : config) (now later : Z)
  (value : bool) (ClientID t1 t2 : Z) (w : world)
  (calls : list (Z * request)) (polls : list (option byte))
  (ios : list datagram_io) (schedule : list turn) :
  in_uint32_range ClientID ->
  in_uint32_range t1 ->
  in_uint32_range t2 ->
  Forall is_not_SetConnected calls ->
  (forall r1 r2,
     fst (fst (interleave_threads schedule
                 (SetConnected_then_GetConnected cfg now later value ClientID t1 t2)
                 (side_threads cfg calls polls ios) w)) = Done (r1, r2) ->
     exists b, r2 = Ok200 b /\ field "Value" b = Some (JBool value)) /\
  ((6 <= observed_turns schedule)%nat ->
   exists r1 b,
     fst (fst (interleave_threads schedule
                 (SetConnected_then_GetConnected cfg now later value ClientID t1 t2)
                 (side_threads cfg calls polls ios) w)) = Done (r1, Ok200 b) /\
     field "Value" b = Some (JBool value)).
Proof.
  intros Hcid Ht1 Ht2 Hcalls.
  pose proof (interleave_threads_returns connected_status
                (GetConnected_answers value) schedule 6 _ _ w
                (SetConnected_then_GetConnected_returns cfg now later value
                   ClientID t1 t2 (connected_status w) Hcid Ht1 Ht2)
                (side_threads_keep_connected cfg calls polls ios Hcalls)) as Hafter.
  split.
  - intros r1 r2 Hdone. rewrite Hdone in Hafter.
    apply returns_keeping_Done_inv in Hafter. exact Hafter.
  - intros Hturns.
    replace (6 - observed_turns schedule)%nat with 0%nat in Hafter by lia.
    apply returns_keeping_at_0 in Hafter.
    destruct Hafter as ([r1 r2] & Heq & b & Hr2 & Hvalue).
    cbn [snd] in Hr2. subst r2. exists r1, b. split; [exact Heq | exact Hvalue].
Qed.

Lemma SetConnected_then_GetConnected_round_trip_witness :
  in_uint32_range 1 /\
  in_uint32_range 5 /\
  in_uint32_range 6 /\
  Forall is_not_SetConnected
    [(12, SetSafe (Given true) (Given 1) (Given 3)); (13, IsSafe Missing)] /\
  (forall r1 r2,
     fst (fst (interleave_threads example_process_schedule
                 (SetConnected_then_GetConnected DEFAULT_CONFIG 11 14 true 1 5 6)
                 (side_threads DEFAULT_CONFIG
                    [(12, SetSafe (Given true) (Given 1) (Given 3)); (13, IsSafe Missing)]
                    example_polls example_turns)
                 initial_world)) = Done (r1, r2) ->
     exists b, r2 = Ok200 b /\ field "Value" b = Some (JBool true)) /\
  ((6 <= observed_turns example_process_schedule)%nat ->
   exists r1 b,
     fst (fst (interleave_threads example_process_schedule
                 (SetConnected_then_GetConnected DEFAULT_CONFIG 11 14 true 1 5 6)
                 (side_threads DEFAULT_CONFIG
                    [(12, SetSafe (Given true) (Given 1) (Given 3)); (13, IsSafe Missing)]
                    example_polls example_turns)
                 initial_world)) = Done (r1, Ok200 b) /\
     field "Value" b = Some (JBool true)).
Proof.
  assert (H1 : in_uint32_range 1) by (unfold in_uint32_range, UINT32_MAX; lia).
  assert (H5 : in_uint32_range 5) by (unfold in_uint32_range, UINT32_MAX; lia).
  assert (H6 : in_uint32_range 6) by (unfold in_uint32_range, UINT32_MAX; lia).
  assert (Hc : Forall is_not_SetConnected
                 [(12, SetSafe (Given true) (Given 1) (Given 3)); (13, IsSafe Missing)])
    by (repeat constructor; discriminate).
  split; [exact H1 |]. split; [exact H5 |]. split; [exact H6 |]. split; [exact Hc |].
  exact (SetConnected_then_GetConnected_round_trip DEFAULT_CONFIG 11 14 true 1 5 6
           initial_world _ example_polls example_turns example_process_schedule
           H1 H5 H6 Hc).
Defined.

(** ** The keyboard monitor, key by key *)

(** X6: whatever keys are pressed, and however the monitor ends (still
    polling, quit, or ended by an undecodable byte), it never assigns
    [connected_status]: no step of it does, and the flag is the same after
    the run. *)
Theorem keyboard_monitor_leaves_connected (polls : list (option byte)) (w : world) :
  keeps connected_status (monitor_keyboard polls) /\
  connected_status (snd (run (monitor_keyboard polls) w)) = connected_status w.
Proof.
  split; [apply monitor_keyboard_never_assigns_connected |].
  apply keeps_run, monitor_keyboard_never_assigns_connected.
Qed.

Lemma keyboard_iteration_polling (k : option byte) (w : world) :
  keeps_polling k = true ->
  exists w',
    run (monitor_keyboard_iteration k) w = (Val Continue, w') /\
    is_safe_status w' = xorb (is_safe_status w) (is_toggle k) /\
    connected_status w' = connected_status w.
Proof.
  unfold keeps_polling, is_quit, is_undecodable, is_toggle, key_of.
  destruct k as [b |]; cbn [negb andb].
  - unfold monitor_keyboard_iteration, decode_utf8.
    destruct (Byte.to_N b <? 128)%N; cbn [negb andb]; [| discriminate].
    cbn [ret bind].
    destruct (Ascii.eqb (lower_ascii (ascii_of_byte b)) "s").
    + intros _. eexists. split; [reflexivity |]. cbn.
      split; [destruct (is_safe_status w); reflexivity | reflexivity].
    + destruct (Ascii.eqb (lower_ascii (ascii_of_byte b)) "q"); [discriminate |].
      intros _. eexists. split; [reflexivity |]. cbn.
      split; [destruct (is_safe_status w); reflexivity | reflexivity].
  - intros _. eexists. split; [reflexivity |]. cbn.
    split; [destruct (is_safe_status w); reflexivity | reflexivity].
Qed.

(** X7: as long as no key is the quit key and every byte decodes, the
    monitor goes on polling and [is_safe_status] is its starting value
    flipped once per toggle key (s or S): it differs from the start exactly
    when the number of toggles is odd. *)
Theorem keyboard_toggles_by_parity (polls : list (option byte)) (w : world) :
  forallb keeps_polling polls = true ->
  exists w',
    run (keyboard_loop polls) w = (Val Continue, w') /\
    is_safe_status w' = xorb (is_safe_status w) (toggled polls).
Proof.
  revert w. induction polls as [| k polls IH]; intros w Hpolls.
  - exists w. split; [reflexivity |]. cbn. rewrite xorb_false_r. reflexivity.
  - cbn [forallb] in Hpolls. apply andb_true_iff in Hpolls as [Hk Hrest].
    destruct (keyboard_iteration_polling k w Hk) as (w1 & Hrun & Hsafe & _).
    destruct (IH w1 Hrest) as (w' & Hloop & Hsafe').
    exists w'. cbn [keyboard_loop toggled]. rewrite run_bind, Hrun. split; [exact Hloop |].
    rewrite Hsafe', Hsafe, xorb_assoc. reflexivity.
Qed.

Lemma keyboard_toggles_by_parity_witness :
  forallb keeps_polling example_polls = true /\
  exists w',
    run (keyboard_loop example_polls) initial_world = (Val Continue, w') /\
    is_safe_status w' = xorb (is_safe_status initial_world) (toggled example_polls).
Proof.
  split; [reflexivity |].
  exact (keyboard_toggles_by_parity example_polls initial_world eq_refl).
Defined.

(** X8: once the monitor has ended, by the quit key or by an error, the keys
    pressed afterwards are never read: appending polls changes neither the
    outcome nor the world. *)
Theorem keyboard_monitor_stays_ended (polls rest : list (option byte)) (w : world) :
  fst (run (keyboard_loop polls) w) <> Val Continue ->
  run (keyboard_loop (polls ++ rest)) w = run (keyboard_loop polls) w.
Proof.
  revert w. induction polls as [| k polls IH]; intros w Hended.
  - cbn in Hended. congruence.
  - rewrite <- app_comm_cons. cbn [keyboard_loop] in *.
    rewrite run_bind in Hended. rewrite !run_bind.
    destruct (run (monitor_keyboard_iteration k) w) as [[[|] | e] w1];
      [apply IH; exact Hended | reflexivity | reflexivity].
Qed.

Lemma keyboard_monitor_stays_ended_witness :
  fst (run (keyboard_loop [Some key_s; Some "Q"%byte]) initial_world) <> Val Continue /\
  run (keyboard_loop ([Some key_s; Some "Q"%byte] ++ [Some key_s; Some key_s; Some key_s]))
    initial_world
  = run (keyboard_loop [Some key_s; Some "Q"%byte]) initial_world.
Proof.
  assert (H : fst (run (keyboard_loop [Some key_s; Some "Q"%byte]) initial_world)
              <> Val Continue) by (cbn; discriminate).
  split; [exact H |].
  exact (keyboard_monitor_stays_ended [Some key_s; Some "Q"%byte]
           [Some key_s; Some key_s; Some key_s] initial_world H).
Defined.

(** X9: the monitor does not tell an upper-case key from its lower-case one:
    on every byte it behaves as on the byte of the lower-cased character, so
    S toggles as s does and Q quits as q does. *)
Theorem keyboard_keys_case_insensitive (b : byte) (w : world) :
  run (monitor_keyboard_iteration (Some b)) w =
  run (monitor_keyboard_iteration
         (Some (byte_of_ascii (lower_ascii (ascii_of_byte b))))) w /\
  run (monitor_keyboard_iteration (Some "S"%byte)) w =
  run (monitor_keyboard_iteration (Some key_s)) w /\
  run (monitor_keyboard_iteration (Some "Q"%byte)) w =
  run (monitor_keyboard_iteration (Some key_q)) w.
Proof.
  split; [| split; reflexivity].
  destruct b; reflexivity.
Qed.

(** ** The discovery listener, turn by turn *)

Lemma sent_app (es1 es2 : list effect) :
  sent (es1 ++ es2) = (sent es1 ++ sent es2)%list.
Proof.
  induction es1 as [| e es1 IH]; [reflexivity |].
  destruct e; cbn [sent List.app]; rewrite IH; reflexivity.
Qed.

Lemma sent_turns (cfg : config) (ios : list datagram_io) :
  sent (flat_map (turn_effects cfg) ios) =
  map (fun a => (DiscoveryPayload cfg, a)) (answered ios).
Proof.
  induction ios as [| io ios IH]; [reflexivity |].
  change (flat_map (turn_effects cfg) (io :: ios))
    with (turn_effects cfg io ++ flat_map (turn_effects cfg) ios)%list.
  cbn [answered]. rewrite sent_app, IH. unfold turn_effects.
  destruct (recvfrom_result io) as [received | e]; [| reflexivity].
  destruct (sendto_result io) as [u | e]; reflexivity.
Qed.

(** X10: while its errors are caught, the listener sends exactly one
    datagram per turn that received one and whose send succeeded, in the
    order of arrival, each to the sender of that turn and each carrying the
    same dict; a turn that failed sends nothing. *)
Theorem discovery_replies_once_in_order (cfg : config) (ios : list datagram_io)
  (w : world) :
  Forall (fun io => per_message_error io = true) ios ->
  sent (effects (snd (run (start_discovery_listener cfg ios) w))) =
  (sent (effects w) ++ map (fun a => (DiscoveryPayload cfg, a)) (answered ios))%list.
Proof.
  intros Hios. unfold start_discovery_listener. rewrite run_bind. cbn.
  rewrite (discovery_loop_caught cfg ios Hios). cbn [snd effects add_effects].
  rewrite !sent_app, sent_turns. cbn [sent]. rewrite app_nil_r. reflexivity.
Qed.

Lemma discovery_replies_once_in_order_witness :
  Forall (fun io => per_message_error io = true) example_turns /\
  sent (effects (snd (run (start_discovery_listener DEFAULT_CONFIG example_turns)
                        initial_world))) =
  (sent (effects initial_world) ++
   map (fun a => (DiscoveryPayload DEFAULT_CONFIG, a)) (answered example_turns))%list.
Proof.
  assert (H : Forall (fun io => per_message_error io = true) example_turns)
    by (repeat constructor).
  split; [exact H |].
  exact (discovery_replies_once_in_order DEFAULT_CONFIG example_turns initial_world H).
Defined.

Lemma run_emit (e : effect) (w : world) :
  run (emit e) w = (Val tt, add_effects [e] w).
Proof. reflexivity. Qed.

Lemma discovery_loop_app (cfg : config) (ios1 ios2 : list datagram_io) (w : world) :
  run (discovery_loop cfg (ios1 ++ ios2)) w =
  match run (discovery_loop cfg ios1) w with
  | (Val _, w') => run (discovery_loop cfg ios2) w'
  | (Raise e, w') => (Raise e, w')
  end.
Proof.
  revert w. induction ios1 as [| io ios1 IH]; intros w; [reflexivity |].
  rewrite <- app_comm_cons. cbn [discovery_loop]. rewrite !run_bind.
  destruct (run (discovery_iteration cfg io) w) as [[u | e] w1];
    [apply IH | reflexivity].
Qed.

Lemma discovery_iteration_uncaught (cfg : config) (io : datagram_io) (e : exn)
  (w : world) :
  turn_error io = Some e -> is_Exception e = false ->
  exists w', run (discovery_iteration cfg io) w = (Raise e, w').
Proof.
  unfold turn_error. destruct io as [[received | e0] sent0];
    cbn [recvfrom_result sendto_result].
  - destruct sent0 as [u | e1]; [discriminate |].
    intros [= ->] Hexc. eexists. cbn. rewrite Hexc. reflexivity.
  - intros [= ->] Hexc. eexists. cbn. rewrite Hexc. reflexivity.
Qed.

(** X11: [except Exception] does not catch an error that is not an
    [Exception] (KeyboardInterrupt, SystemExit): the turn that meets one
    ends the listener with that error, and the datagrams of later turns are
    neither read nor answered. *)
Theorem discovery_listener_ended_by_non_Exception (cfg : config)
  (ios1 ios2 : list datagram_io) (io : datagram_io) (e : exn) (w : world) :
  Forall (fun io => per_message_error io = true) ios1 ->
  turn_error io = Some e ->
  is_Exception e = false ->
  fst (run (start_discovery_listener cfg (ios1 ++ io :: ios2)) w) = Raise e /\
  run (start_discovery_listener cfg (ios1 ++ io :: ios2)) w =
  run (start_discovery_listener cfg (ios1 ++ [io])) w.
Proof.
  intros Hios1 Herr Hexc. unfold start_discovery_listener, logging_info.
  rewrite !run_bind, !run_emit.
  rewrite !discovery_loop_app, (discovery_loop_caught cfg ios1 Hios1).
  cbn [discovery_loop]. rewrite !run_bind.
  match goal with
  | |- context [run (discovery_iteration cfg io) ?W] =>
      destruct (discovery_iteration_uncaught cfg io e W Herr Hexc) as (w' & Hrun);
      rewrite Hrun
  end.
  split; reflexivity.
Qed.

Lemma discovery_listener_ended_by_non_Exception_witness :
  Forall (fun io => per_message_error io = true) example_turns /\
  turn_error (DatagramIO (Raise (Exc SystemExit "exit")) (Val tt))
    = Some (Exc SystemExit "exit") /\
  is_Exception (Exc SystemExit "exit") = false /\
  fst (run (start_discovery_listener DEFAULT_CONFIG
              (example_turns ++
               DatagramIO (Raise (Exc SystemExit "exit")) (Val tt) :: example_turns))
         initial_world) = Raise (Exc SystemExit "exit") /\
  run (start_discovery_listener DEFAULT_CONFIG
         (example_turns ++
          DatagramIO (Raise (Exc SystemExit "exit")) (Val tt) :: example_turns))
    initial_world =
  run (start_discovery_listener DEFAULT_CONFIG
         (example_turns ++ [DatagramIO (Raise (Exc SystemExit "exit")) (Val tt)]))
    initial_world.
Proof.
  assert (H : Forall (fun io => per_message_error io = true) example_turns)
    by (repeat constructor).
  split; [exact H |]. split; [reflexivity |]. split; [reflexivity |].
  exact (discovery_listener_ended_by_non_Exception DEFAULT_CONFIG example_turns
           example_turns (DatagramIO (Raise (Exc SystemExit "exit")) (Val tt))
           (Exc SystemExit "exit") initial_world H eq_refl eq_refl).
Defined.

(** X12: the discovery listener never assigns [connected_status] or
    [is_safe_status]: no step of it does, on any datagrams and whatever
    fails, and both flags are the same after any run of it. *)
Theorem discovery_listener_leaves_flags (cfg : config) (ios : list datagram_io)
  (w : world) :
  keeps connected_status (start_discovery_listener cfg ios) /\
  keeps is_safe_status (start_discovery_listener cfg ios) /\
  flags (snd (run (start_discovery_listener cfg ios) w)) = flags w.
Proof.
  pose proof (discovery_listener_never_assigns connected_status cfg ios
                connected_status_add_effects) as Hc.
  pose proof (discovery_listener_never_assigns is_safe_status cfg ios
                is_safe_status_add_effects) as Hs.
  split; [exact Hc | split; [exact Hs |]].
  unfold flags. rewrite (keeps_run _ _ w Hc), (keeps_run _ _ w Hs). reflexivity.
Qed.

(** ** One identity everywhere *)

(** X13: the management description, the single entry of configureddevices
    and the discovery reply report the same DeviceName, DeviceType,
    DeviceNumber and UniqueID; the Name route returns that DeviceName, and
    the DriverVersion route returns what the description calls
    DriverVersion and the discovery reply ManufacturerVersion. *)
Theorem identity_agrees_everywhere (cfg : config) (now : Z) (q : params)
  (data : list byte) (addr : address) (w : world) :
  exists d c n v,
    answered_field "Value"
      (run (app cfg now (Request GET_management_description q)) w) = Some d /\
    answered_field "Value"
      (run (app cfg now (Request GET_management_configureddevices q)) w)
      = Some (JList [c]) /\
    sent (effects (snd (run (discovery_iteration cfg
                               (DatagramIO (Val (data, addr)) (Val tt))) w)))
      = (sent (effects w) ++ [(DiscoveryPayload cfg, addr)])%list /\
    (forall k, In k identity_keys ->
               field k d <> None /\
               field k c = field k d /\
               field k (DiscoveryPayload cfg) = field k d) /\
    answered_field "Value"
      (run (app cfg now (Request GET_name (Params Missing Missing Missing Missing))) w)
      = Some n /\
    field "DeviceName" d = Some n /\
    answered_field "Value"
      (run (app cfg now
              (Request GET_driverversion (Params Missing Missing Missing Missing))) w)
      = Some v /\
    field "DriverVersion" d = Some v /\
    field "ManufacturerVersion" (DiscoveryPayload cfg) = Some v /\
    field "Manufacturer" (DiscoveryPayload cfg) = field "Manufacturer" d.
Proof.
  do 4 eexists.
  split; [reflexivity |]. split; [reflexivity |].
  split.
  { rewrite (discovery_iteration_caught cfg (DatagramIO (Val (data, addr)) (Val tt)) w)
      by reflexivity.
    cbn [snd effects add_effects]. rewrite sent_app. reflexivity. }
  split.
  { intros k Hk. cbn in Hk.
    destruct Hk as [<- | [<- | [<- | [<- | []]]]];
      (split; [discriminate | split; reflexivity]). }
  repeat split; reflexivity.
Qed.

(** ** The unique identifier *)












(** ** Loading the configuration *)







(** ** The log level *)







